(** * pyamlboot: the Amlogic USB boot protocol driver

    A shallow embedding of [pyamlboot/pyamlboot.py] (class [AmlogicSoC])
    and the properties of its wire behaviour.

    Python integers are [Z]; byte strings are [list byte]; the methods of
    [AmlogicSoC] are computations in a state-and-exception monad whose
    state is the session: the USB device handle [self.dev] together with
    the trace of the calls the driver made on it. *)

From Stdlib Require Import ZArith List String Lia Bool.
From Stdlib.Strings Require Import Byte.
From Equations Require Import Equations.
Import ListNotations.

Open Scope Z_scope.

(** ** Protocol constants (module level of pyamlboot.py) *)

Definition REQ_WRITE_MEM : Z := 0x01.
Definition REQ_READ_MEM : Z := 0x02.
Definition REQ_FILL_MEM : Z := 0x03.
Definition REQ_MODIFY_MEM : Z := 0x04.
Definition REQ_RUN_IN_ADDR : Z := 0x05.
Definition REQ_WRITE_AUX : Z := 0x06.
Definition REQ_READ_AUX : Z := 0x07.
Definition REQ_WR_LARGE_MEM : Z := 0x11.
Definition REQ_RD_LARGE_MEM : Z := 0x12.
Definition REQ_IDENTIFY_HOST : Z := 0x20.
Definition REQ_TPL_CMD : Z := 0x30.
Definition REQ_TPL_STAT : Z := 0x31.
Definition REQ_PASSWORD : Z := 0x35.
Definition REQ_NOP : Z := 0x36.
Definition FLAG_KEEP_POWER_ON : Z := 0x10.

(** The integer names bound in the module's global namespace.  The other
    module-level names ([string], [os], [usb], [Struct], [unpack], [pack],
    [AmlogicSoC]) are modules, functions and a class. *)
Definition module_globals : list (string * Z) :=
  [ ("REQ_WRITE_MEM", REQ_WRITE_MEM); ("REQ_READ_MEM", REQ_READ_MEM);
    ("REQ_FILL_MEM", REQ_FILL_MEM); ("REQ_MODIFY_MEM", REQ_MODIFY_MEM);
    ("REQ_RUN_IN_ADDR", REQ_RUN_IN_ADDR); ("REQ_WRITE_AUX", REQ_WRITE_AUX);
    ("REQ_READ_AUX", REQ_READ_AUX); ("REQ_WR_LARGE_MEM", REQ_WR_LARGE_MEM);
    ("REQ_RD_LARGE_MEM", REQ_RD_LARGE_MEM);
    ("REQ_IDENTIFY_HOST", REQ_IDENTIFY_HOST); ("REQ_TPL_CMD", REQ_TPL_CMD);
    ("REQ_TPL_STAT", REQ_TPL_STAT); ("REQ_PASSWORD", REQ_PASSWORD);
    ("REQ_NOP", REQ_NOP); ("FLAG_KEEP_POWER_ON", FLAG_KEEP_POWER_ON) ]%string.

(** ** Python values and exceptions *)

Definition buffer := list byte.

Inductive PyError : Type :=
| ValueError (msg : string)
| NameError (name : string)
| ZeroDivisionError
| StructError
| IndexError
| AttributeError
| TypeError
| USBError (errno : Z).

(** The two kinds of sequence the driver's reads handle: a string, and the
    [array('B')] in which PyUSB hands back what a device sent. *)
Inductive PySeq : Type :=
| PyStr (chars : buffer)
| PyArray (items : buffer).

(** [len(data)] *)
Definition len {A} (l : list A) : Z := Z.of_nat (List.length l).

(** [data[lo:hi]]: a negative index counts from the end, and both ends are
    clamped to the sequence. *)
Definition slice_index (n i : Z) : Z :=
  if i <? 0 then Z.max 0 (i + n) else Z.min i n.

Definition slice {A} (data : list A) (lo hi : Z) : list A :=
  let l := slice_index (len data) lo in
  let h := slice_index (len data) hi in
  firstn (Z.to_nat (h - l)) (skipn (Z.to_nat l) data).

(** [data * n] for a sequence: no copy at all when [n <= 0]. *)
Definition seq_mul {A} (data : list A) (n : Z) : list A :=
  List.concat (repeat data (Z.to_nat n)).

Definition byte_of_Z (z : Z) : byte :=
  match Byte.of_N (Z.to_N (z mod 256)) with
  | Some b => b
  | None => x00
  end.

Definition ord (b : byte) : Z := Z.of_N (Byte.to_N b).

(** One ['I'] field of [struct.pack] in little-endian mode: four bytes,
    least significant first; [struct.error] outside [0, 2^32). *)
Definition le32 (v : Z) : buffer :=
  [ byte_of_Z v; byte_of_Z (Z.shiftr v 8);
    byte_of_Z (Z.shiftr v 16); byte_of_Z (Z.shiftr v 24) ].

Definition pack_I (v : Z) : PyError + buffer :=
  if (0 <=? v) && (v <? 2 ^ 32) then inr (le32 v) else inl StructError.

(** [unpack('<I', b)[0]] *)
Definition unpack_I (b : buffer) : PyError + Z :=
  match b with
  | [b0; b1; b2; b3] =>
      inr (ord b0 + Z.shiftl (ord b1) 8 + Z.shiftl (ord b2) 16
           + Z.shiftl (ord b3) 24)
  | _ => inl StructError
  end.

(** ** The USB device handle

    [usb.core] and [usb.util] are PyUSB, outside this repository: the
    driver sees them through the calls below.  A control transfer carries
    the five arguments the driver passes by keyword. *)

Inductive DataOrLength : Type :=
| Data (payload : buffer)       (* a byte string *)
| Ints (payload : list Z)       (* a list of integers *)
| Length (wLength : Z)          (* a number of bytes to read *)
| NoData.                       (* None *)

Record ctrl_request : Type := mk_ctrl {
  bmRequestType : Z;
  bRequest : Z;
  wValue : Z;
  wIndex : Z;
  data_or_wLength : DataOrLength
}.

Record endpoint : Type := mk_endpoint { bEndpointAddress : Z }.

(** An interface is the list of its endpoints; a configuration lists, for
    each interface, its alternate settings. *)
Definition interface := list endpoint.
Definition configuration := list (list interface).

(** [usb.util.endpoint_direction] and the two direction constants. *)
Definition ENDPOINT_OUT : Z := 0x00.
Definition ENDPOINT_IN : Z := 0x80.
Definition endpoint_direction (address : Z) : Z := Z.land address 0x80.

(** [usb.util.find_descriptor(intf, custom_match = m)]: the first
    descriptor that matches, [None] when there is none. *)
Definition find_descriptor (intf : interface) (custom_match : endpoint -> bool)
  : option endpoint := find custom_match intf.

(** [cfg[(i, j)]] *)
Definition cfg_getitem (cfg : configuration) (i j : nat) : option interface :=
  match nth_error cfg i with
  | Some alts => nth_error alts j
  | None => None
  end.

(** What a device does when called: every call may raise, and may change
    the device. *)
Class UsbDevice (D : Type) : Type := {
  usb_ctrl_transfer : ctrl_request -> D -> (PyError + buffer) * D;
  usb_get_active_configuration : D -> (PyError + configuration) * D;
  usb_ep_write : endpoint -> buffer -> Z -> D -> (PyError + unit) * D;
  usb_ep_read : endpoint -> Z -> Z -> D -> (PyError + buffer) * D
}.

(** The calls the driver makes on the USB library, in program order. *)
Inductive usb_call : Type :=
| Ctrl_transfer (r : ctrl_request)
| Get_active_configuration
| Find_descriptor (direction : Z)
| Ep_write (ep : endpoint) (data : buffer) (timeout : Z)
| Ep_read (ep : endpoint) (size timeout : Z).

(** ** Sessions and the driver monad *)

Record session (D : Type) : Type := mk_session {
  dev : D;                  (* self.dev *)
  calls : list usb_call     (* trace, oldest call first *)
}.
Arguments mk_session {D} _ _.
Arguments dev {D} _.
Arguments calls {D} _.

Definition M (D A : Type) : Type := session D -> (PyError + A) * session D.

Definition ret {D A} (a : A) : M D A := fun s => (inr a, s).

Definition raise {D A} (e : PyError) : M D A := fun s => (inl e, s).

Definition bind {D A B} (m : M D A) (k : A -> M D B) : M D B :=
  fun s =>
    match m s with
    | (inr a, s') => k a s'
    | (inl e, s') => (inl e, s')
    end.

Declare Scope py_scope.
Delimit Scope py_scope with py.
Notation "x <- m ;; k" := (bind m (fun x => k))
  (at level 61, m at next level, right associativity) : py_scope.
Notation "m ;; k" := (bind m (fun _ => k))
  (at level 61, right associativity) : py_scope.
Open Scope py_scope.

(** A pure step that may raise. *)
Definition lift {D A} (r : PyError + A) : M D A :=
  match r with
  | inr a => ret a
  | inl e => raise e
  end.

(** [a % b] on integers: Python raises on a zero divisor, and the
    remainder takes the divisor's sign. *)
Definition py_mod {D} (a b : Z) : M D Z :=
  if b =? 0 then raise ZeroDivisionError else ret (a mod b).

(** [int(a / b)] on integers: Python raises on a zero divisor; [/] is the
    true quotient and [int] drops its fractional part, rounding toward
    zero. *)
Definition py_div {D} (a b : Z) : M D Z :=
  if b =? 0 then raise ZeroDivisionError else ret (Z.quot a b).

(** [s + x] for a string [s]: another string is appended, an array is a
    [TypeError]. *)
Definition str_add {D} (s : buffer) (x : PySeq) : M D buffer :=
  match x with
  | PyStr t => ret (s ++ t)
  | PyArray _ => raise TypeError
  end.

(** [unpack('<I', x)[0]]: [unpack] reads a buffer of bytes, not a
    string. *)
Definition unpack_I_seq (x : PySeq) : PyError + Z :=
  match x with
  | PyArray items => unpack_I items
  | PyStr _ => inl TypeError
  end.

(** Reading a name that is neither a local nor a builtin. *)
Fixpoint lookup_name (name : string) (env : list (string * Z)) : option Z :=
  match env with
  | [] => None
  | (n, v) :: env' => if String.eqb n name then Some v else lookup_name name env'
  end.

Definition load_global {D} (name : string) : M D Z :=
  match lookup_name name module_globals with
  | Some v => ret v
  | None => raise (NameError name)
  end.

(** [pack('<IIII', a, b, c, d)] *)
Definition pack_IIII {D} (a b c d : Z) : M D buffer :=
  fa <- lift (pack_I a) ;;
  fb <- lift (pack_I b) ;;
  fc <- lift (pack_I c) ;;
  fd <- lift (pack_I d) ;;
  ret (fa ++ fb ++ fc ++ fd).

Section Driver.

Context {D : Type} `{UsbDevice D}.

(** *** Calls on [self.dev], each recorded in the trace *)

Definition ctrl_transfer (r : ctrl_request) : M D buffer :=
  fun s =>
    let (res, d) := usb_ctrl_transfer r (dev s) in
    (res, mk_session d (calls s ++ [Ctrl_transfer r])).

Definition get_active_configuration : M D configuration :=
  fun s =>
    let (res, d) := usb_get_active_configuration (dev s) in
    (res, mk_session d (calls s ++ [Get_active_configuration])).

(** [cfg[(0,0)]] followed by [find_descriptor] for one direction. *)
Definition first_endpoint (cfg : configuration) (direction : Z)
  : M D (option endpoint) :=
  match cfg_getitem cfg 0 0 with
  | None => raise IndexError
  | Some intf =>
      fun s =>
        (inr (find_descriptor intf
                (fun e => endpoint_direction (bEndpointAddress e) =? direction)),
         mk_session (dev s) (calls s ++ [Find_descriptor direction]))
  end.

(** [ep.write(data, timeout)]; [ep] is [None] when no endpoint matched. *)
Definition ep_write (ep : option endpoint) (data : buffer) (timeout : Z)
  : M D unit :=
  match ep with
  | None => raise AttributeError
  | Some e =>
      fun s =>
        let (res, d) := usb_ep_write e data timeout (dev s) in
        (res, mk_session d (calls s ++ [Ep_write e data timeout]))
  end.

Definition ep_read (ep : option endpoint) (size timeout : Z) : M D buffer :=
  match ep with
  | None => raise AttributeError
  | Some e =>
      fun s =>
        let (res, d) := usb_ep_read e size timeout (dev s) in
        (res, mk_session d (calls s ++ [Ep_read e size timeout]))
  end.

(** *** Chunked memory access *)

Definition writeSimpleMemory (address : Z) (data : buffer) : M D unit :=
  if len data >? 64 then raise (ValueError "Maximum size of 64bytes")
  else
    ctrl_transfer (mk_ctrl 0x40 REQ_WRITE_MEM
                     (Z.shiftr address 16) (Z.land address 0xffff)
                     (Data data)) ;;
    ret tt.

(** The [while length:] loop of [writeMemory], on its variables
    [length] and [offset]. *)
Equations? writeMemory_loop (address : Z) (data : buffer)
    (length offset : Z) : M D unit by wf (Z.to_nat length) lt :=
  writeMemory_loop address data length offset with Z.eq_dec length 0 := {
    | left _ => ret tt
    | right _ =>
        writeSimpleMemory (address + offset) (slice data offset (offset + 64)) ;;
        match Z_gt_dec length 64 with
        | left _ => writeMemory_loop address data (length - 64) (offset + 64)
        | right _ => ret tt
        end }.
Proof. lia. Qed.

Definition writeMemory (address : Z) (data : buffer) : M D unit :=
  writeMemory_loop address data (len data) 0.

(** What [readSimpleMemory] returns is the string [''] for a length of 0
    and otherwise the array that [ctrl_transfer] returned, as it is. *)
Definition readSimpleMemory (address : Z) (length : Z) : M D PySeq :=
  if length =? 0 then ret (PyStr [])
  else if length >? 64 then raise (ValueError "Maximum size of 64bytes")
  else
    reply <- ctrl_transfer (mk_ctrl 0xc0 REQ_READ_MEM
                              (Z.shiftr address 16) (Z.land address 0xffff)
                              (Length length)) ;;
    ret (PyArray reply).

(** The [while length:] loop of [readMemory], on its variables [data],
    [length] and [offset].  [data] starts as the string [''] and each turn
    adds to it what [readSimpleMemory] returned. *)
Equations? readMemory_loop (address : Z) (data : buffer)
    (length offset : Z) : M D buffer by wf (Z.to_nat length) lt :=
  readMemory_loop address data length offset with Z.eq_dec length 0 := {
    | left _ => ret data
    | right _ with Z_ge_dec length 64 := {
        | left _ =>
            chunk <- readSimpleMemory (address + offset) 64 ;;
            data' <- str_add data chunk ;;
            readMemory_loop address data' (length - 64) (offset + 64)
        | right _ =>
            chunk <- readSimpleMemory (address + offset) length ;;
            data' <- str_add data chunk ;;
            ret data' } }.
Proof. lia. Qed.

Definition readMemory (address : Z) (length : Z) : M D buffer :=
  readMemory_loop address [] length 0.

(** *** Register and memory modification *)

Definition modifyMemory (opcode address1 data mask address2 : Z) : M D unit :=
  controlData <- pack_IIII address1 data mask address2 ;;
  ctrl_transfer (mk_ctrl 0x40 REQ_MODIFY_MEM opcode 0 (Data controlData)) ;;
  ret tt.

Definition readReg (address : Z) : M D Z :=
  reg <- readSimpleMemory address 4 ;;
  lift (unpack_I_seq reg).

Definition writeReg (address value : Z) : M D unit :=
  modifyMemory 0 address value 0 0.

Definition maskRegAND (address mask : Z) : M D unit :=
  modifyMemory 1 address 0 mask 0.

Definition maskRegOR (address mask : Z) : M D unit :=
  modifyMemory 2 address 0 mask 0.

Definition maskRegNAND (address mask : Z) : M D unit :=
  modifyMemory 3 address 0 mask 0.

Definition writeRegBits (address mask value : Z) : M D unit :=
  modifyMemory 4 address value mask 0.

Definition copyReg (source dest : Z) : M D unit :=
  modifyMemory 5 dest 0 0 source.

Definition copyRegMaskAND (source dest mask : Z) : M D unit :=
  modifyMemory 6 dest 0 mask source.

Definition memcpy (dest src n : Z) : M D unit :=
  modifyMemory 7 src n 0 dest.

(** *** Session operations *)

Definition run (address : Z) (keep_power : bool) : M D unit :=
  let data := if keep_power then Z.lor address FLAG_KEEP_POWER_ON
              else address in
  controlData <- lift (pack_I data) ;;
  ctrl_transfer (mk_ctrl 0x40 REQ_RUN_IN_ADDR
                   (Z.shiftr address 16) (Z.land address 0xffff)
                   (Data controlData)) ;;
  ret tt.

(** [chr(x)] for the integers of a received array. *)
Definition chr (x : Z) : byte := byte_of_Z x.

Definition identify : M D buffer :=
  reply <- ctrl_transfer (mk_ctrl 0xc0 REQ_IDENTIFY_HOST 0 0 (Length 8)) ;;
  ret (map (fun x => chr (ord x)) reply).

(** [length] is not a parameter of [sendPassword], is never assigned in
    it, and is not a builtin: the name is looked up in the module's
    globals. *)
Definition sendPassword (password : buffer) : M D unit :=
  length <- load_global "length" ;;
  if negb (length =? 64) then raise (ValueError "Password size is 64bytes")
  else
    let controlData := map ord password in
    ctrl_transfer (mk_ctrl 0x40 REQ_PASSWORD 0 0 (Ints controlData)) ;;
    ret tt.

Definition nop : M D unit :=
  ctrl_transfer (mk_ctrl 0x40 REQ_NOP 0 0 NoData) ;;
  ret tt.

(** *** Bulk block transfers *)

(** The [while blockCount > 0:] loop of [writeLargeMemory]. *)
Equations? writeLargeMemory_loop (ep : option endpoint) (data : buffer)
    (blockLength blockCount offset : Z) : M D unit
    by wf (Z.to_nat blockCount) lt :=
  writeLargeMemory_loop ep data blockLength blockCount offset
    with Z_gt_dec blockCount 0 := {
    | left _ =>
        ep_write ep (slice data offset (offset + blockLength)) 100 ;;
        writeLargeMemory_loop ep data blockLength
          (blockCount - 1) (offset + blockLength)
    | right _ => ret tt }.
Proof. lia. Qed.

(** [int(len(data) / blockLength)] is the quotient rounded down, as the
    source's Python 2 division on integers gives it. *)
Definition writeLargeMemory (address : Z) (data : buffer)
    (blockLength : Z) (appendZeros : bool) : M D unit :=
  data <- (if appendZeros then
             append <- py_mod (len data) blockLength ;;
             ret (data ++ seq_mul [x00] append)
           else
             r <- py_mod (len data) blockLength ;;
             if negb (r =? 0) then
               raise (ValueError "Large Data must be a multiple of block length")
             else ret data) ;;
  blockCount <- py_div (len data) blockLength ;;
  controlData <- pack_IIII address (len data) 0 0 ;;
  let offset := 0 in
  cfg <- get_active_configuration ;;
  ep <- first_endpoint cfg ENDPOINT_OUT ;;
  ctrl_transfer (mk_ctrl 0x40 REQ_WR_LARGE_MEM blockLength blockCount
                   (Data controlData)) ;;
  writeLargeMemory_loop ep data blockLength blockCount offset.

(** The [while blockCount > 0:] loop of [readLargeMemory]. *)
Equations? readLargeMemory_loop (ep : option endpoint) (data : buffer)
    (blockLength blockCount : Z) : M D buffer
    by wf (Z.to_nat blockCount) lt :=
  readLargeMemory_loop ep data blockLength blockCount
    with Z_gt_dec blockCount 0 := {
    | left _ =>
        block <- ep_read ep blockLength 100 ;;
        readLargeMemory_loop ep (data ++ map (fun x => chr (ord x)) block)
          blockLength (blockCount - 1)
    | right _ => ret data }.
Proof. lia. Qed.

Definition readLargeMemory (address : Z) (length : Z)
    (blockLength : Z) (appendZeros : bool) : M D buffer :=
  length <- (if appendZeros then
               r <- py_mod length blockLength ;;
               ret (length + r)
             else
               r <- py_mod length blockLength ;;
               if negb (r =? 0) then
                 raise (ValueError "Large Data must be a multiple of block length")
               else ret length) ;;
  blockCount <- py_div length blockLength ;;
  controlData <- pack_IIII address length 0 0 ;;
  let data := [] in
  cfg <- get_active_configuration ;;
  ep <- first_endpoint cfg ENDPOINT_IN ;;
  ctrl_transfer (mk_ctrl 0x40 REQ_RD_LARGE_MEM blockLength blockCount
                   (Data controlData)) ;;
  readLargeMemory_loop ep data blockLength blockCount.

End Driver.

(** ** A memory-backed device *)

Module Stub.

(** Modelled from the spec: the "simulated memory-backed device stub" of
    the round-trip property, which the repository does not contain.  The
    device owns a byte-addressed memory with 32-bit addresses.  The two
    parameters of a control transfer are 16-bit fields of the setup
    packet; a memory write stores its payload at the address they spell,
    a memory read answers with the bytes found there, and the
    announcement of a bulk phase sets the cursor that the following bulk
    blocks advance.  No call on the stub ever fails. *)
Record stub : Type := mk_stub {
  mem : Z -> byte;
  cursor : Z
}.

Definition wire16 (v : Z) : Z := v mod 2 ^ 16.

Definition wire_address (r : ctrl_request) : Z :=
  Z.shiftl (wire16 (wValue r)) 16 + wire16 (wIndex r).

Definition poke (m : Z -> byte) (a : Z) (b : byte) : Z -> byte :=
  fun x => if x =? a mod 2 ^ 32 then b else m x.

Fixpoint store (m : Z -> byte) (a : Z) (bs : buffer) : Z -> byte :=
  match bs with
  | [] => m
  | b :: bs' => store (poke m a b) (a + 1) bs'
  end.

Fixpoint load (m : Z -> byte) (a : Z) (n : nat) : buffer :=
  match n with
  | O => []
  | S n' => m (a mod 2 ^ 32) :: load m (a + 1) n'
  end.

Definition announced (p : buffer) (d : stub) : stub :=
  match unpack_I (firstn 4 p) with
  | inr a => mk_stub (mem d) a
  | inl _ => d
  end.

Definition reply (r : ctrl_request) (d : stub) : buffer :=
  if bRequest r =? REQ_READ_MEM then
    match data_or_wLength r with
    | Length n => load (mem d) (wire_address r) (Z.to_nat n)
    | _ => []
    end
  else [].

Definition next (r : ctrl_request) (d : stub) : stub :=
  match data_or_wLength r with
  | Data p =>
      if bRequest r =? REQ_WRITE_MEM then
        mk_stub (store (mem d) (wire_address r) p) (cursor d)
      else if (bRequest r =? REQ_WR_LARGE_MEM)
              || (bRequest r =? REQ_RD_LARGE_MEM) then announced p d
      else d
  | _ => d
  end.

(** One interface with a bulk-IN and a bulk-OUT endpoint. *)
Definition config : configuration :=
  [ [ [ mk_endpoint 0x81; mk_endpoint 0x01 ] ] ].

#[global] Instance device : UsbDevice stub := {
  usb_ctrl_transfer r d := (inr (reply r d), next r d);
  usb_get_active_configuration d := (inr config, d);
  usb_ep_write _ data _ d :=
    (inr tt, mk_stub (store (mem d) (cursor d) data) (cursor d + len data));
  usb_ep_read _ size _ d :=
    (inr (load (mem d) (cursor d) (Z.to_nat size)),
     mk_stub (mem d) (cursor d + size))
}.

(** A freshly opened stub: zeroed memory, nothing called yet. *)
Definition fresh : session stub :=
  mk_session (mk_stub (fun _ => x00) 0) [].

End Stub.

(** ** Reading traces *)

(** A value that fits an unsigned 32-bit field. *)
Definition u32 (v : Z) : Prop := 0 <= v < 2 ^ 32.

(** [unpack('<IIII', payload)], the device's view of a sixteen-byte
    payload. *)
Definition unpack_IIII (payload : buffer) : option (Z * Z * Z * Z) :=
  match unpack_I (slice payload 0 4), unpack_I (slice payload 4 8),
        unpack_I (slice payload 8 12), unpack_I (slice payload 12 16) with
  | inr a, inr b, inr c, inr d =>
      if len payload =? 16 then Some (a, b, c, d) else None
  | _, _, _, _ => None
  end.

(** The control transfers of a trace, and the payloads of its bulk
    writes. *)
Definition ctrl_transfers (t : list usb_call) : list ctrl_request :=
  flat_map (fun c => match c with Ctrl_transfer r => [r] | _ => [] end) t.

Definition bulk_writes (t : list usb_call) : list buffer :=
  flat_map (fun c => match c with Ep_write _ b _ => [b] | _ => [] end) t.


(** The address is split over the two parameters of the transfer. *)
Definition splits_address (address : Z) (r : ctrl_request) : Prop :=
  wValue r = Z.shiftr address 16 /\ wIndex r = Z.land address 0xffff.

(** [ceil(a / b)] for positive [b]. *)
Definition ceil_div (a b : Z) : Z := (a + b - 1) / b.

(** The [i]-th 64-byte chunk of a buffer, the control transfer that
    writes it at its place from [address], and the number of chunks. *)
Definition chunk (data : buffer) (i : nat) : buffer :=
  firstn 64 (skipn (64 * i) data).

Definition chunk_request (address : Z) (data : buffer) (i : nat)
  : ctrl_request :=
  mk_ctrl 0x40 REQ_WRITE_MEM
    (Z.shiftr (address + 64 * Z.of_nat i) 16)
    (Z.land (address + 64 * Z.of_nat i) 0xffff)
    (Data (chunk data i)).

Definition chunk_transfer (address : Z) (data : buffer) (i : nat) : usb_call :=
  Ctrl_transfer (chunk_request address data i).

(** The device after it has served a list of control transfers. *)
Definition device_after {D} `{UsbDevice D} (rs : list ctrl_request) (d : D) : D :=
  fold_left (fun d r => snd (usb_ctrl_transfer r d)) rs d.

Definition chunk_count (data : buffer) : nat :=
  Z.to_nat (ceil_div (len data) 64).

(** Bulk transactions. *)
Definition is_bulk (c : usb_call) : bool :=
  match c with
  | Ep_write _ _ _ | Ep_read _ _ _ => true
  | _ => false
  end.

(** [data] as [writeLargeMemory] rebinds it before counting blocks. *)
Definition padded (data : buffer) (blockLength : Z) (appendZeros : bool)
  : buffer :=
  if appendZeros then data ++ seq_mul [x00] (len data mod blockLength)
  else data.

(** The announcement of a bulk phase. *)
Definition announcement (bRequest address length blockLength : Z)
  : ctrl_request :=
  mk_ctrl 0x40 bRequest blockLength (length / blockLength)
    (Data (le32 address ++ le32 length ++ le32 0 ++ le32 0)).

(** A device whose control transfers never fail. *)
Definition reliable_ctrl (D : Type) `{UsbDevice D} : Prop :=
  forall r d, exists b, fst (usb_ctrl_transfer r d) = inr b.

(** A device that reports an active configuration with an interface
    [(0,0)], whatever its state. *)
Definition configured (D : Type) `{UsbDevice D} : Prop :=
  forall d, exists cfg intf,
    fst (usb_get_active_configuration d) = inr cfg
    /\ cfg_getitem cfg 0 0 = Some intf.

(** A caller's sequence of large transfers on one session; an exception
    ends the call that raised it, not the session. *)
Inductive large_call : Type :=
| WriteLarge (address : Z) (data : buffer) (blockLength : Z) (appendZeros : bool)
| ReadLarge (address length blockLength : Z) (appendZeros : bool).



(** The argument checks that come before the endpoint lookup: the length
    check, and the ranges [pack] accepts. *)
Definition checks_pass (c : large_call) : bool :=
  match c with
  | WriteLarge address data blockLength appendZeros =>
      (0 <? blockLength)
      && (appendZeros || (len data mod blockLength =? 0))
      && (0 <=? address) && (address <? 2 ^ 32) && (len data <? 2 ^ 31)
  | ReadLarge address length blockLength appendZeros =>
      (0 <? blockLength)
      && (appendZeros || (length mod blockLength =? 0))
      && (0 <=? address) && (address <? 2 ^ 32)
      && (0 <=? length) && (length <? 2 ^ 31)
  end.


(** Sample buffers: five bytes, and seventy (one full chunk and a short
    one). *)
Definition five : buffer := [x01; x02; x03; x04; x05].

Definition seventy : buffer := repeat x5a 69 ++ [xa5].

(** ** Further vocabulary for traces *)

(** Control transfers issued in order, up to the first that fails. *)
Fixpoint transfer_all {D} `{UsbDevice D} (rs : list ctrl_request) : M D unit :=
  match rs with
  | [] => ret tt
  | r :: rs' => ctrl_transfer r ;; transfer_all rs'
  end.

(** The one read request [readMemory(address, length)] gets to make: 64
    bytes, or [length] when that is less. *)
Definition first_read_request (address length : Z) : ctrl_request :=
  mk_ctrl 0xc0 REQ_READ_MEM
    (Z.shiftr address 16) (Z.land address 0xffff)
    (Length (if length >=? 64 then 64 else length)).

(** The [i]-th block of a large transfer. *)
Definition block (data : buffer) (blockLength : Z) (i : nat) : buffer :=
  firstn (Z.to_nat blockLength) (skipn (Z.to_nat blockLength * i) data).

Definition blocks (data : buffer) (blockLength : Z) : list buffer :=
  map (block data blockLength)
      (seq 0 (Z.to_nat (len data / blockLength))).

(** The device after it has taken a list of bulk writes on one endpoint. *)
Definition bulk_after {D} `{UsbDevice D} (e : endpoint) (bs : list buffer)
    (d : D) : D :=
  fold_left (fun d b => snd (usb_ep_write e b 100 d)) bs d.

(** A device whose bulk writes never fail. *)
Definition reliable_bulk_out (D : Type) `{UsbDevice D} : Prop :=
  forall e b t d, exists u, fst (usb_ep_write e b t d) = inr u.

(** A device whose active configuration has an interface [(0,0)] in which
    the lookup for [direction] gives [found]. *)
Definition endpoint_lookup (D : Type) `{UsbDevice D} (direction : Z)
    (found : option endpoint) : Prop :=
  forall d, exists cfg intf,
    fst (usb_get_active_configuration d) = inr cfg
    /\ cfg_getitem cfg 0 0 = Some intf
    /\ find_descriptor intf
         (fun e => endpoint_direction (bEndpointAddress e) =? direction)
       = found.

(** One modify-memory transfer with the given sub-opcode and fields. *)
Definition modify_wire {D} `{UsbDevice D} (opcode address1 data mask address2 : Z)
    (m : M D unit) (s : session D) : Prop :=
  exists r payload,
    calls (snd (m s)) = calls s ++ [Ctrl_transfer r]
    /\ bmRequestType r = 0x40 /\ bRequest r = REQ_MODIFY_MEM
    /\ wValue r = opcode /\ wIndex r = 0
    /\ data_or_wLength r = Data payload
    /\ unpack_IIII payload = Some (address1, data, mask, address2).

(** ** Opening a session *)

(** [usb.core.find(idVendor=..., idProduct=...)] over the devices on the
    bus, each with its two identifiers: the first that matches both. *)
Definition usb_core_find {D} (bus : list (Z * Z * D)) (idVendor idProduct : Z)
  : option D :=
  match find (fun x => (fst (fst x) =? idVendor) && (snd (fst x) =? idProduct))
             bus with
  | Some x => Some (snd x)
  | None => None
  end.

(** [AmlogicSoC.__init__]: the new object holds the device found. *)
Definition AmlogicSoC_init {D} (bus : list (Z * Z * D))
    (idVendor idProduct : Z) : PyError + session D :=
  match usb_core_find bus idVendor idProduct with
  | None => inl (ValueError "Device not found")
  | Some d => inr (mk_session d [])
  end.

(** The default identifiers of [__init__]. *)
Definition default_idVendor : Z := 0x1b8e.
Definition default_idProduct : Z := 0xc003.

(** ** A device without a bulk-OUT endpoint *)

Module InOnly.

(** A device that accepts every control transfer and whose only endpoint
    is a bulk-IN one. *)
Definition config : configuration := [ [ [ mk_endpoint 0x81 ] ] ].

#[global] Instance device : UsbDevice unit := {
  usb_ctrl_transfer _ d := (inr [], d);
  usb_get_active_configuration d := (inr config, d);
  usb_ep_write _ _ _ d := (inr tt, d);
  usb_ep_read _ _ _ d := (inr [], d)
}.

Definition fresh : session unit := mk_session tt [].

End InOnly.

(** * Properties *)

(** ** Little-endian packing *)

Lemma ord_byte_of_Z z : ord (byte_of_Z z) = z mod 256.
Proof.
  unfold ord, byte_of_Z.
  assert (Hz : 0 <= z mod 256 < 256) by (apply Z.mod_pos_bound; lia).
  destruct (Byte.of_N (Z.to_N (z mod 256))) as [b|] eqn:E.
  - apply Byte.to_of_N in E. rewrite E. apply Z2N.id. lia.
  - apply Byte.of_N_None_iff in E. lia.
Qed.

Lemma unpack_le32 v : u32 v -> unpack_I (le32 v) = inr v.
Proof.
  unfold u32. intros Hv. unfold le32, unpack_I. f_equal.
  rewrite !ord_byte_of_Z, !Z.shiftl_mul_pow2, !Z.shiftr_div_pow2 by lia.
  change (2 ^ 8) with 256. change (2 ^ 16) with 65536.
  change (2 ^ 24) with 16777216. change (2 ^ 32) with 4294967296 in Hv.
  Z.div_mod_to_equations. lia.
Qed.

Lemma pack_I_u32 v : u32 v -> pack_I v = inr (le32 v).
Proof.
  unfold u32, pack_I. intros [H0 H1].
  apply Z.leb_le in H0. apply Z.ltb_lt in H1. rewrite H0, H1. reflexivity.
Qed.

Lemma unpack_IIII_le32 a b c d :
  u32 a -> u32 b -> u32 c -> u32 d ->
  unpack_IIII (le32 a ++ le32 b ++ le32 c ++ le32 d) = Some (a, b, c, d).
Proof.
  intros Ha Hb Hc Hd. unfold unpack_IIII.
  change (slice (le32 a ++ le32 b ++ le32 c ++ le32 d) 0 4) with (le32 a).
  change (slice (le32 a ++ le32 b ++ le32 c ++ le32 d) 4 8) with (le32 b).
  change (slice (le32 a ++ le32 b ++ le32 c ++ le32 d) 8 12) with (le32 c).
  change (slice (le32 a ++ le32 b ++ le32 c ++ le32 d) 12 16) with (le32 d).
  rewrite !unpack_le32 by assumption. reflexivity.
Qed.

Lemma pack_IIII_u32 {D} a b c d (s : session D) :
  u32 a -> u32 b -> u32 c -> u32 d ->
  pack_IIII a b c d s = (inr (le32 a ++ le32 b ++ le32 c ++ le32 d), s).
Proof.
  intros Ha Hb Hc Hd. unfold pack_IIII, bind, lift.
  rewrite !pack_I_u32 by assumption. reflexivity.
Qed.

Lemma lor_flag_u32 a : u32 a -> u32 (Z.lor a FLAG_KEEP_POWER_ON).
Proof.
  unfold u32, FLAG_KEEP_POWER_ON. intros Ha.
  assert (H0 : 0 <= Z.lor a 16) by (apply Z.lor_nonneg; lia).
  split; [exact H0|].
  destruct (Z.eq_dec (Z.lor a 16) 0) as [E|E]; [rewrite E; lia|].
  apply Z.log2_lt_pow2; [lia|].
  rewrite Z.log2_lor by lia. apply Z.max_lub_lt.
  - destruct (Z.eq_dec a 0) as [->|Hn]; [cbn; lia|].
    apply Z.log2_lt_pow2; lia.
  - cbn. lia.
Qed.

Section Laws.

Context {D : Type} `{UsbDevice D}.

(** *** Stepping through the monad *)

Lemma bind_inr {A B} (m : M D A) (k : A -> M D B) s a s' :
  m s = (inr a, s') -> bind m k s = k a s'.
Proof. intros E. unfold bind. rewrite E. reflexivity. Qed.

Lemma bind_inl {A B} (m : M D A) (k : A -> M D B) s e s' :
  m s = (inl e, s') -> bind m k s = (inl e, s').
Proof. intros E. unfold bind. rewrite E. reflexivity. Qed.

Lemma py_mod_run a b (s : session D) :
  b <> 0 -> py_mod a b s = (inr (a mod b), s).
Proof.
  intros Hb. unfold py_mod. destruct (Z.eqb_spec b 0); [contradiction|].
  reflexivity.
Qed.

Lemma py_div_run a b (s : session D) :
  0 <= a -> 0 < b -> py_div a b s = (inr (a / b), s).
Proof.
  intros Ha Hb. unfold py_div. destruct (Z.eqb_spec b 0); [lia|].
  rewrite Z.quot_div_nonneg by lia. reflexivity.
Qed.


Lemma writeMemory_loop_eq address data length offset :
  writeMemory_loop address data length offset =
  if length =? 0 then ret tt
  else
    writeSimpleMemory (address + offset) (slice data offset (offset + 64)) ;;
    if length >? 64
    then writeMemory_loop address data (length - 64) (offset + 64)
    else ret tt.
Proof.
  rewrite writeMemory_loop_equation_1.
  destruct (Z.eq_dec length 0) as [e|n]; cbn.
  - subst. reflexivity.
  - destruct (Z.eqb_spec length 0); [contradiction|].
    f_equal.
    destruct (Z_gt_dec length 64); destruct (Z.gtb_spec length 64);
      try lia; reflexivity.
Qed.

Lemma readMemory_loop_eq address data length offset :
  readMemory_loop address data length offset =
  if length =? 0 then ret data
  else if length >=? 64 then
    chunk <- readSimpleMemory (address + offset) 64 ;;
    data' <- str_add data chunk ;;
    readMemory_loop address data' (length - 64) (offset + 64)
  else
    chunk <- readSimpleMemory (address + offset) length ;;
    data' <- str_add data chunk ;;
    ret data'.
Proof.
  rewrite readMemory_loop_equation_1.
  destruct (Z.eq_dec length 0) as [e|n]; cbn.
  - subst. reflexivity.
  - destruct (Z.eqb_spec length 0); [contradiction|].
    destruct (Z_ge_dec length 64); destruct (Z.geb_spec length 64);
      try lia; reflexivity.
Qed.

Lemma writeLargeMemory_loop_eq ep data blockLength blockCount offset :
  writeLargeMemory_loop ep data blockLength blockCount offset =
  if blockCount >? 0 then
    ep_write ep (slice data offset (offset + blockLength)) 100 ;;
    writeLargeMemory_loop ep data blockLength
      (blockCount - 1) (offset + blockLength)
  else ret tt.
Proof.
  rewrite writeLargeMemory_loop_equation_1.
  destruct (Z_gt_dec blockCount 0); destruct (Z.gtb_spec blockCount 0);
    try lia; reflexivity.
Qed.

Lemma readLargeMemory_loop_eq ep data blockLength blockCount :
  readLargeMemory_loop ep data blockLength blockCount =
  if blockCount >? 0 then
    block <- ep_read ep blockLength 100 ;;
    readLargeMemory_loop ep (data ++ map (fun x => chr (ord x)) block)
      blockLength (blockCount - 1)
  else ret data.
Proof.
  rewrite readLargeMemory_loop_equation_1.
  destruct (Z_gt_dec blockCount 0); destruct (Z.gtb_spec blockCount 0);
    try lia; reflexivity.
Qed.

(** *** Slices *)

Lemma firstn_plus {A} (n m : nat) (l : list A) :
  firstn (n + m) l = firstn n l ++ firstn m (skipn n l).
Proof.
  revert l. induction n as [|n IH]; intros l; [reflexivity|].
  destruct l as [|x l]; cbn; [now destruct m | now rewrite IH].
Qed.

Lemma slice_chunk {A} (data : list A) offset k :
  0 <= offset <= len data -> 0 <= k ->
  slice data offset (offset + k)
  = firstn (Z.to_nat k) (skipn (Z.to_nat offset) data).
Proof.
  intros Ho Hk. unfold slice, slice_index.
  destruct (Z.ltb_spec offset 0); [lia|].
  destruct (Z.ltb_spec (offset + k) 0); [lia|].
  rewrite (Z.min_l offset) by lia.
  assert (Hl : List.length (skipn (Z.to_nat offset) data)
               = Z.to_nat (len data - offset)).
  { rewrite length_skipn. unfold len. lia. }
  destruct (Z.le_ge_cases (offset + k) (len data)).
  - rewrite Z.min_l by lia. f_equal. lia.
  - rewrite Z.min_r by lia.
    rewrite !firstn_all2 by (rewrite Hl; lia). reflexivity.
Qed.

Lemma chunks_cover data :
  forall m j, List.concat (map (chunk data) (seq j m))
              = firstn (64 * m) (skipn (64 * j) data).
Proof.
  induction m as [|m IH]; intros j.
  - rewrite Nat.mul_0_r. reflexivity.
  - cbn [seq map List.concat]. rewrite IH.
    replace (64 * S m)%nat with (64 + 64 * m)%nat by lia.
    rewrite firstn_plus, skipn_skipn. unfold chunk.
    do 3 f_equal. lia.
Qed.

(** *** Single-chunk primitives *)

(** C7: [writeSimpleMemory] raises [ValueError] for every buffer longer
    than 64 bytes and [readSimpleMemory] for every length above 64, the
    session being left as it was (nothing was transferred); a read of
    length 0 returns the empty buffer, again without any transfer. *)
Theorem simple_memory_ceiling :
  (forall address data s,
      len data > 64 ->
      writeSimpleMemory address data s
      = (inl (ValueError "Maximum size of 64bytes"), s))
  /\ (forall address length s,
      length > 64 ->
      readSimpleMemory address length s
      = (inl (ValueError "Maximum size of 64bytes"), s))
  /\ (forall address s, readSimpleMemory address 0 s = (inr (PyStr []), s)).
Proof.
  repeat split.
  - intros address data s Hlen. unfold writeSimpleMemory.
    destruct (Z.gtb_spec (len data) 64); [reflexivity | lia].
  - intros address length s Hlen. unfold readSimpleMemory.
    destruct (Z.eqb_spec length 0); [lia|].
    destruct (Z.gtb_spec length 64); [reflexivity | lia].
Qed.

(** Within the ceiling, a single-chunk write is one control transfer. *)
Lemma writeSimpleMemory_ok address data s :
  len data <= 64 ->
  writeSimpleMemory address data s
  = (ctrl_transfer (mk_ctrl 0x40 REQ_WRITE_MEM
                      (Z.shiftr address 16) (Z.land address 0xffff)
                      (Data data)) ;; ret tt) s.
Proof.
  intros Hlen. unfold writeSimpleMemory.
  destruct (Z.gtb_spec (len data) 64); [lia | reflexivity].
Qed.

Lemma readSimpleMemory_ok address length s :
  length <> 0 -> length <= 64 ->
  readSimpleMemory address length s
  = (reply <- ctrl_transfer (mk_ctrl 0xc0 REQ_READ_MEM
                               (Z.shiftr address 16) (Z.land address 0xffff)
                               (Length length)) ;;
     ret (PyArray reply)) s.
Proof.
  intros Hnz Hlen. unfold readSimpleMemory.
  destruct (Z.eqb_spec length 0); [lia|].
  destruct (Z.gtb_spec length 64); [lia | reflexivity].
Qed.

(** *** Chunked writes *)

Lemma ceil_div_64_step L : 0 < L -> ceil_div (L - 64) 64 = ceil_div L 64 - 1.
Proof. unfold ceil_div. intros. Z.div_mod_to_equations. lia. Qed.

Lemma writeMemory_loop_chunks address data :
  reliable_ctrl D ->
  forall m j s,
    64 * Z.of_nat j <= len data ->
    Z.to_nat (ceil_div (len data - 64 * Z.of_nat j) 64) = m ->
    writeMemory_loop address data
      (len data - 64 * Z.of_nat j) (64 * Z.of_nat j) s
    = (inr tt,
       mk_session
         (device_after (map (chunk_request address data) (seq j m)) (dev s))
         (calls s ++ map (chunk_transfer address data) (seq j m))).
Proof.
  intros Hrel. induction m as [|m IH]; intros j s Hj Hm;
    rewrite writeMemory_loop_eq;
    destruct (Z.eqb_spec (len data - 64 * Z.of_nat j) 0) as [E|E].
  - cbn. rewrite app_nil_r. now destruct s.
  - exfalso. unfold ceil_div in Hm. Z.div_mod_to_equations. lia.
  - exfalso. rewrite E in Hm. discriminate.
  - rewrite slice_chunk by lia.
    replace (Z.to_nat (64 * Z.of_nat j)) with (64 * j)%nat by lia.
    change (Z.to_nat 64) with 64%nat. fold (chunk data j).
    assert (Hc : len (chunk data j) <= 64).
    { unfold chunk, len.
      pose proof (firstn_le_length 64 (skipn (64 * j) data)). lia. }
    unfold bind at 1. rewrite writeSimpleMemory_ok by exact Hc.
    unfold bind at 1. unfold ctrl_transfer.
    fold (chunk_request address data j).
    cbn [seq map device_after fold_left].
    fold (device_after (map (chunk_request address data) (seq (S j) m))
            (snd (usb_ctrl_transfer (chunk_request address data j) (dev s)))).
    destruct (Hrel (chunk_request address data j) (dev s)) as [b Eb].
    destruct (usb_ctrl_transfer (chunk_request address data j) (dev s))
      as [res d].
    cbn [fst] in Eb. subst res. cbn [ret snd].
    destruct (Z.gtb_spec (len data - 64 * Z.of_nat j) 64) as [G|G].
    + replace (len data - 64 * Z.of_nat j - 64)
        with (len data - 64 * Z.of_nat (S j)) by lia.
      replace (64 * Z.of_nat j + 64) with (64 * Z.of_nat (S j)) by lia.
      rewrite IH.
      * cbn [calls dev]. rewrite <- app_assoc. reflexivity.
      * lia.
      * replace (len data - 64 * Z.of_nat (S j))
          with (len data - 64 * Z.of_nat j - 64) by lia.
        rewrite ceil_div_64_step by lia. lia.
    + assert (m = O).
      { unfold ceil_div in Hm. Z.div_mod_to_equations. lia. }
      subst m. reflexivity.
Qed.

(** C4: on a device whose control transfers succeed, [writeMemory]
    returns normally after exactly [ceil(len(data)/64)] control
    transfers; the [i]-th (from 0) writes the [i]-th chunk at
    [address + 64*i]; every chunk has at most 64 bytes, and the chunks,
    in order, make up [data] (no gap, no overlap).  An empty buffer
    issues none. *)
Theorem writeMemory_chunks address data s :
  reliable_ctrl D ->
  let n := chunk_count data in
  fst (writeMemory address data s) = inr tt
  /\ calls (snd (writeMemory address data s))
     = calls s ++ map (chunk_transfer address data) (seq 0 n)
  /\ Z.of_nat n = ceil_div (len data) 64
  /\ Forall (fun i => len (chunk data i) <= 64) (seq 0 n)
  /\ List.concat (map (chunk data) (seq 0 n)) = data
  /\ (data = [] -> calls (snd (writeMemory address data s)) = calls s).
Proof.
  intros Hrel n. unfold writeMemory.
  assert (Hlen : 0 <= len data) by (unfold len; lia).
  pose proof (writeMemory_loop_chunks address data Hrel n 0 s) as E.
  change (64 * Z.of_nat 0) with 0 in E. rewrite Z.sub_0_r in E.
  rewrite E by (subst n; unfold chunk_count; lia).
  cbn [fst snd calls].
  assert (Hn : Z.of_nat n = ceil_div (len data) 64).
  { subst n. unfold chunk_count, ceil_div. rewrite Z2Nat.id; [reflexivity|].
    Z.div_mod_to_equations. lia. }
  repeat split; try assumption.
  - apply Forall_forall. intros i _. unfold chunk, len.
    pose proof (firstn_le_length 64 (skipn (64 * i) data)). lia.
  - rewrite chunks_cover. change (64 * 0)%nat with 0%nat. cbn [skipn].
    apply firstn_all2.
    unfold ceil_div, len in Hn. Z.div_mod_to_equations. lia.
  - intros ->. cbn. apply app_nil_r.
Qed.

(** *** The modify-memory family *)

(** What [modifyMemory] does with fields that fit 32 bits: one control
    transfer, and no error but the transport's. *)
Lemma modifyMemory_run opcode address1 data mask address2 s :
  u32 address1 -> u32 data -> u32 mask -> u32 address2 ->
  let r := mk_ctrl 0x40 REQ_MODIFY_MEM opcode 0
             (Data (le32 address1 ++ le32 data ++ le32 mask ++ le32 address2)) in
  modifyMemory opcode address1 data mask address2 s
  = (match fst (usb_ctrl_transfer r (dev s)) with
     | inl e => inl e
     | inr _ => inr tt
     end,
     mk_session (snd (usb_ctrl_transfer r (dev s)))
                (calls s ++ [Ctrl_transfer r])).
Proof.
  intros H1 H2 H3 H4 r. unfold modifyMemory, bind.
  rewrite pack_IIII_u32 by assumption.
  unfold ctrl_transfer. fold r.
  destruct (usb_ctrl_transfer r (dev s)) as [[e|b] d]; reflexivity.
Qed.

(** C10: [modifyMemory] does not look at its sub-opcode.  Whatever the
    integer [opcode], and for fields that fit their 32-bit slots, it
    issues exactly one control transfer, with [opcode] in wValue, zero
    in wIndex and the four fields packed little-endian in the payload;
    it raises nothing of its own (the result is an error only when the
    transfer itself failed). *)
Theorem modifyMemory_any_opcode opcode address1 data mask address2 s :
  u32 address1 -> u32 data -> u32 mask -> u32 address2 ->
  exists r,
    calls (snd (modifyMemory opcode address1 data mask address2 s))
    = calls s ++ [Ctrl_transfer r]
    /\ bRequest r = REQ_MODIFY_MEM /\ bmRequestType r = 0x40
    /\ wValue r = opcode /\ wIndex r = 0
    /\ (exists payload,
           data_or_wLength r = Data payload
           /\ payload = le32 address1 ++ le32 data ++ le32 mask ++ le32 address2
           /\ unpack_IIII payload = Some (address1, data, mask, address2))
    /\ fst (modifyMemory opcode address1 data mask address2 s)
       = match fst (usb_ctrl_transfer r (dev s)) with
         | inl e => inl e
         | inr _ => inr tt
         end.
Proof.
  intros H1 H2 H3 H4.
  rewrite (modifyMemory_run opcode _ _ _ _ s H1 H2 H3 H4).
  eexists. cbn [fst snd calls]. split; [reflexivity|].
  cbn [bRequest bmRequestType wValue wIndex data_or_wLength].
  repeat (split; [reflexivity|]). split; [|reflexivity].
  eexists. split; [reflexivity|]. split; [reflexivity|].
  now apply unpack_IIII_le32.
Qed.

(** C5: the transfer [memcpy(dest, src, n)] issues.  Sub-opcode 7 goes in
    wValue, and the payload's first field (address1) holds [src], its
    second [n], its fourth (address2) [dest]. *)
Theorem memcpy_wire dest src n s :
  u32 dest -> u32 src -> u32 n ->
  exists r payload,
    calls (snd (memcpy dest src n s)) = calls s ++ [Ctrl_transfer r]
    /\ wValue r = 7
    /\ data_or_wLength r = Data payload
    /\ unpack_IIII payload = Some (src, n, 0, dest).
Proof.
  intros Hd Hs Hn. unfold memcpy.
  assert (H0 : u32 0) by (unfold u32; lia).
  rewrite (modifyMemory_run 7 _ _ _ _ s Hs Hn H0 Hd).
  do 2 eexists. cbn [fst snd calls].
  split; [reflexivity|]. cbn [wValue data_or_wLength].
  split; [reflexivity|]. split; [reflexivity|].
  now apply unpack_IIII_le32.
Qed.

(** The sibling copy operations put the destination first. *)
Lemma copyReg_wire source dest s :
  u32 source -> u32 dest ->
  exists r payload,
    calls (snd (copyReg source dest s)) = calls s ++ [Ctrl_transfer r]
    /\ wValue r = 5
    /\ data_or_wLength r = Data payload
    /\ unpack_IIII payload = Some (dest, 0, 0, source).
Proof.
  intros Hs Hd. unfold copyReg.
  assert (H0 : u32 0) by (unfold u32; lia).
  rewrite (modifyMemory_run 5 _ _ _ _ s Hd H0 H0 Hs).
  do 2 eexists. cbn [fst snd calls].
  split; [reflexivity|]. cbn [wValue data_or_wLength].
  split; [reflexivity|]. split; [reflexivity|].
  now apply unpack_IIII_le32.
Qed.

(** *** Password submission *)

(** C2: [sendPassword] raises [NameError] on every buffer, of 64 bytes or
    not, and transfers nothing: its length check reads the unbound name
    [length]. *)
Theorem sendPassword_unbound_length password s :
  sendPassword password s = (inl (NameError "length"), s).
Proof. reflexivity. Qed.

(** *** Bulk block transfers *)

(** C6: without [appendZeros], a buffer whose length is not a multiple
    of the (non-zero) block length is refused with [ValueError], and the
    session is left as it was: no lookup, no announcement, no bulk
    write. *)
Theorem writeLargeMemory_unaligned address data blockLength s :
  blockLength <> 0 ->
  ~ (blockLength | len data) ->
  writeLargeMemory address data blockLength false s
  = (inl (ValueError "Large Data must be a multiple of block length"), s).
Proof.
  intros Hb Hnd. unfold writeLargeMemory.
  assert (Hm : len data mod blockLength <> 0).
  { intros E. apply Hnd. apply Z.mod_divide; assumption. }
  apply bind_inl. erewrite bind_inr by (apply py_mod_run; assumption).
  destruct (Z.eqb_spec (len data mod blockLength) 0); [contradiction|].
  reflexivity.
Qed.

Lemma len_app {A} (l l' : list A) : len (l ++ l') = len l + len l'.
Proof. unfold len. rewrite length_app. lia. Qed.

Lemma len_seq_mul {A} (x : A) n : len (seq_mul [x] n) = Z.max 0 n.
Proof.
  unfold seq_mul, len.
  assert (E : forall k, List.length (List.concat (repeat [x] k)) = k).
  { induction k; cbn; congruence. }
  rewrite E. lia.
Qed.

(** The bulk loops issue bulk transactions only. *)
Lemma writeLargeMemory_loop_trace ep data blockLength :
  forall n blockCount offset s,
    Z.to_nat blockCount = n ->
    exists t,
      calls (snd (writeLargeMemory_loop ep data blockLength
                    blockCount offset s)) = calls s ++ t
      /\ forallb is_bulk t = true.
Proof.
  induction n as [|n IH]; intros blockCount offset s Hn;
    rewrite writeLargeMemory_loop_eq;
    destruct (Z.gtb_spec blockCount 0); try lia;
    try (exists []; split; [symmetry; apply app_nil_r | reflexivity]).
  unfold bind, ep_write. destruct ep as [e|].
  - destruct (usb_ep_write e _ 100 (dev s)) as [[err|u] d].
    + eexists. split; reflexivity.
    + edestruct IH as (t & Et & Ht); [|rewrite Et]; [lia|].
      cbn [calls]. rewrite <- app_assoc. eexists. split; [reflexivity|].
      exact Ht.
  - exists []. split; [symmetry; apply app_nil_r | reflexivity].
Qed.

Lemma readLargeMemory_loop_trace ep blockLength :
  forall n blockCount data s,
    Z.to_nat blockCount = n ->
    exists t,
      calls (snd (readLargeMemory_loop ep data blockLength blockCount s))
      = calls s ++ t
      /\ forallb is_bulk t = true.
Proof.
  induction n as [|n IH]; intros blockCount data s Hn;
    rewrite readLargeMemory_loop_eq;
    destruct (Z.gtb_spec blockCount 0); try lia;
    try (exists []; split; [symmetry; apply app_nil_r | reflexivity]).
  unfold bind, ep_read. destruct ep as [e|].
  - destruct (usb_ep_read e blockLength 100 (dev s)) as [[err|b] d].
    + eexists. split; reflexivity.
    + edestruct IH as (t & Et & Ht); [|rewrite Et]; [lia|].
      cbn [calls]. rewrite <- app_assoc. eexists. split; [reflexivity|].
      exact Ht.
  - exists []. split; [symmetry; apply app_nil_r | reflexivity].
Qed.


Lemma ctrl_transfers_bulk t : forallb is_bulk t = true -> ctrl_transfers t = [].
Proof.
  unfold ctrl_transfers. induction t as [|c t IH]; [reflexivity|].
  cbn [forallb flat_map]. intros Hb. apply andb_prop in Hb.
  destruct Hb as [Hc Ht]. destruct c; try discriminate; auto.
Qed.

(** From the lookup on, a large transfer calls the library in this
    order: the active configuration, the endpoint of its direction, the
    announcement, then bulk transactions. *)
Lemma lookup_then_transfer_trace {A} direction
    (r : ctrl_request) (loop : option endpoint -> M D A) s :
  configured D ->
  (forall ep s', exists t, calls (snd (loop ep s')) = calls s' ++ t
                           /\ forallb is_bulk t = true) ->
  exists t,
    calls (snd ((cfg <- get_active_configuration ;;
                 ep <- first_endpoint cfg direction ;;
                 ctrl_transfer r ;;
                 loop ep) s))
    = calls s ++ [Get_active_configuration; Find_descriptor direction;
                  Ctrl_transfer r] ++ t
    /\ forallb is_bulk t = true.
Proof.
  intros Hcfg Hloop.
  destruct (Hcfg (dev s)) as (cfg & intf & E1 & E2).
  unfold bind, get_active_configuration, first_endpoint, ctrl_transfer.
  destruct (usb_get_active_configuration (dev s)) as [res d].
  cbn [fst] in E1. subst res. rewrite E2. cbn [dev calls].
  destruct (usb_ctrl_transfer r d) as [[err|b] d'].
  - exists []. cbn [snd calls]. rewrite <- !app_assoc. split; reflexivity.
  - match goal with |- context [loop ?ep ?s'] =>
      destruct (Hloop ep s') as (t & Et & Ht) end.
    exists t. rewrite Et. cbn [calls]. rewrite <- !app_assoc.
    split; [reflexivity | exact Ht].
Qed.

Lemma checks_pass_write address data blockLength appendZeros :
  checks_pass (WriteLarge address data blockLength appendZeros) = true ->
  0 < blockLength
  /\ (appendZeros = true \/ len data mod blockLength = 0)
  /\ u32 address /\ len data < 2 ^ 31.
Proof.
  cbn [checks_pass]. unfold u32.
  rewrite !andb_true_iff, orb_true_iff, !Z.ltb_lt, Z.leb_le, Z.eqb_eq.
  tauto.
Qed.

Lemma checks_pass_read address length blockLength appendZeros :
  checks_pass (ReadLarge address length blockLength appendZeros) = true ->
  0 < blockLength
  /\ (appendZeros = true \/ length mod blockLength = 0)
  /\ u32 address /\ 0 <= length < 2 ^ 31.
Proof.
  cbn [checks_pass]. unfold u32.
  rewrite !andb_true_iff, orb_true_iff, !Z.ltb_lt, !Z.leb_le, Z.eqb_eq.
  tauto.
Qed.

Lemma writeLargeMemory_trace address data blockLength appendZeros s :
  configured D ->
  checks_pass (WriteLarge address data blockLength appendZeros) = true ->
  exists t,
    calls (snd (writeLargeMemory address data blockLength appendZeros s))
    = calls s
      ++ [Get_active_configuration; Find_descriptor ENDPOINT_OUT;
          Ctrl_transfer
            (announcement REQ_WR_LARGE_MEM address
               (len (padded data blockLength appendZeros)) blockLength)]
      ++ t
    /\ forallb is_bulk t = true.
Proof.
  intros Hcfg Hok.
  apply checks_pass_write in Hok. destruct Hok as (Hbl & Hal & Ha & Hlt).
  assert (Hlen : 0 <= len data < 2 ^ 31) by (unfold len in *; lia).
  assert (Hz : u32 0) by (unfold u32; lia).
  assert (Hpad :
             (if appendZeros
              then append <- py_mod (len data) blockLength ;;
                   ret (data ++ seq_mul [x00] append)
              else r <- py_mod (len data) blockLength ;;
                   if negb (r =? 0)
                   then raise (ValueError "Large Data must be a multiple of block length")
                   else ret data) s
             = (inr (padded data blockLength appendZeros), s)
             /\ u32 (len (padded data blockLength appendZeros))).
  { unfold padded. destruct appendZeros.
    - split.
      + erewrite bind_inr by (apply py_mod_run; lia). reflexivity.
      + unfold u32. rewrite len_app, len_seq_mul.
        pose proof (Z.mod_pos_bound (len data) blockLength Hbl).
        pose proof (Z.mod_le (len data) blockLength ltac:(lia) Hbl). lia.
    - split.
      + erewrite bind_inr by (apply py_mod_run; lia).
        destruct Hal as [Hal|Hal]; [discriminate|].
        rewrite Hal. reflexivity.
      + unfold u32. lia. }
  destruct Hpad as (Epad & Hlen').
  unfold writeLargeMemory.
  erewrite bind_inr by exact Epad.
  erewrite bind_inr by (apply py_div_run; unfold u32 in *; lia).
  erewrite bind_inr by (apply pack_IIII_u32; assumption).
  apply lookup_then_transfer_trace; [assumption|].
  intros ep s0. eapply writeLargeMemory_loop_trace. reflexivity.
Qed.

Lemma readLargeMemory_trace address length blockLength appendZeros s :
  configured D ->
  checks_pass (ReadLarge address length blockLength appendZeros) = true ->
  exists t,
    calls (snd (readLargeMemory address length blockLength appendZeros s))
    = calls s
      ++ [Get_active_configuration; Find_descriptor ENDPOINT_IN;
          Ctrl_transfer
            (announcement REQ_RD_LARGE_MEM address
               (if appendZeros then length + length mod blockLength
                else length) blockLength)]
      ++ t
    /\ forallb is_bulk t = true.
Proof.
  intros Hcfg Hok.
  apply checks_pass_read in Hok. destruct Hok as (Hbl & Hal & Ha & Hlen).
  assert (Hz : u32 0) by (unfold u32; lia).
  set (length' := if appendZeros then length + length mod blockLength
                  else length).
  assert (Hpad :
             (if appendZeros
              then r <- py_mod length blockLength ;; ret (length + r)
              else r <- py_mod length blockLength ;;
                   if negb (r =? 0)
                   then raise (ValueError "Large Data must be a multiple of block length")
                   else ret length) s = (inr length', s) /\ u32 length').
  { subst length'. destruct appendZeros.
    - split.
      + erewrite bind_inr by (apply py_mod_run; lia). reflexivity.
      + unfold u32.
        pose proof (Z.mod_pos_bound length blockLength Hbl).
        pose proof (Z.mod_le length blockLength ltac:(lia) Hbl). lia.
    - split.
      + erewrite bind_inr by (apply py_mod_run; lia).
        destruct Hal as [Hal|Hal]; [discriminate|].
        rewrite Hal. reflexivity.
      + unfold u32. lia. }
  destruct Hpad as (Epad & Hlen').
  unfold readLargeMemory.
  erewrite bind_inr by exact Epad.
  erewrite bind_inr by (apply py_div_run; unfold u32 in *; lia).
  erewrite bind_inr by (apply pack_IIII_u32; assumption).
  apply lookup_then_transfer_trace; [assumption|].
  intros ep s0. eapply readLargeMemory_loop_trace. reflexivity.
Qed.



(** *** Where the address travels *)

Lemma run_trace address keep_power s :
  u32 address ->
  exists payload,
    calls (snd (run address keep_power s))
    = calls s ++ [Ctrl_transfer
                    (mk_ctrl 0x40 REQ_RUN_IN_ADDR
                       (Z.shiftr address 16) (Z.land address 0xffff)
                       (Data payload))].
Proof.
  intros Ha. unfold run.
  assert (Hd : u32 (if keep_power then Z.lor address FLAG_KEEP_POWER_ON
                    else address)).
  { destruct keep_power; [now apply lor_flag_u32 | assumption]. }
  unfold bind at 1, lift. rewrite (pack_I_u32 _ Hd). cbn [ret].
  eexists. unfold bind, ctrl_transfer.
  destruct (usb_ctrl_transfer _ (dev s)) as [[e|b] d]; reflexivity.
Qed.

(** C8, as the code has it: the single-chunk write and read and [run]
    split the 32-bit address over wValue (high half) and wIndex (low
    half); [modifyMemory] and the announcements of the large transfers
    carry it as the first little-endian field of the payload instead,
    wValue and wIndex holding the sub-opcode and 0, or the call's block
    length and its block count (the length announced, divided by the
    block length). *)
Theorem address_on_the_wire address :
  u32 address ->
  (forall data s,
      len data <= 64 ->
      exists r,
        calls (snd (writeSimpleMemory address data s))
        = calls s ++ [Ctrl_transfer r]
        /\ splits_address address r)
  /\ (forall length s,
      0 < length <= 64 ->
      exists r,
        calls (snd (readSimpleMemory address length s))
        = calls s ++ [Ctrl_transfer r]
        /\ splits_address address r)
  /\ (forall keep_power s,
      exists r,
        calls (snd (run address keep_power s)) = calls s ++ [Ctrl_transfer r]
        /\ splits_address address r)
  /\ (forall opcode data mask address2 s,
      u32 data -> u32 mask -> u32 address2 ->
      exists r payload,
        calls (snd (modifyMemory opcode address data mask address2 s))
        = calls s ++ [Ctrl_transfer r]
        /\ wValue r = opcode /\ wIndex r = 0
        /\ data_or_wLength r = Data payload
        /\ unpack_IIII payload = Some (address, data, mask, address2))
  /\ (forall data blockLength appendZeros s,
      configured D ->
      checks_pass (WriteLarge address data blockLength appendZeros) = true ->
      let total := len (padded data blockLength appendZeros) in
      exists r payload,
        ctrl_transfers
          (calls (snd (writeLargeMemory address data blockLength
                         appendZeros s)))
        = ctrl_transfers (calls s) ++ [r]
        /\ bRequest r = REQ_WR_LARGE_MEM
        /\ wValue r = blockLength /\ wIndex r = total / blockLength
        /\ data_or_wLength r = Data payload
        /\ unpack_IIII payload = Some (address, total, 0, 0))
  /\ (forall length blockLength appendZeros s,
      configured D ->
      checks_pass (ReadLarge address length blockLength appendZeros) = true ->
      let total := if appendZeros then length + length mod blockLength
                   else length in
      exists r payload,
        ctrl_transfers
          (calls (snd (readLargeMemory address length blockLength
                         appendZeros s)))
        = ctrl_transfers (calls s) ++ [r]
        /\ bRequest r = REQ_RD_LARGE_MEM
        /\ wValue r = blockLength /\ wIndex r = total / blockLength
        /\ data_or_wLength r = Data payload
        /\ unpack_IIII payload = Some (address, total, 0, 0)).
Proof.
  intros Ha. repeat apply conj.
  - intros data s Hlen. rewrite writeSimpleMemory_ok by exact Hlen.
    eexists. unfold bind, ctrl_transfer.
    destruct (usb_ctrl_transfer _ (dev s)) as [[e|b] d];
      (split; [reflexivity | split; reflexivity]).
  - intros length s Hlen. rewrite readSimpleMemory_ok by lia.
    eexists. unfold bind, ctrl_transfer.
    destruct (usb_ctrl_transfer _ (dev s)) as [[e|b] d];
      (split; [reflexivity | split; reflexivity]).
  - intros keep_power s.
    destruct (run_trace address keep_power s Ha) as [payload E].
    eexists. split; [exact E | split; reflexivity].
  - intros opcode data mask address2 s Hd Hm H2.
    rewrite (modifyMemory_run opcode _ _ _ _ s Ha Hd Hm H2).
    do 2 eexists. cbn [fst snd calls]. split; [reflexivity|].
    cbn [wValue wIndex data_or_wLength].
    repeat (split; [reflexivity|]). now apply unpack_IIII_le32.
  - intros data bl az s Hcfg Hok total.
    assert (Hz : u32 0) by (unfold u32; lia).
    destruct (writeLargeMemory_trace address data bl az s Hcfg Hok)
      as (t & Et & Ht).
    rewrite Et. unfold ctrl_transfers at 1.
    rewrite !flat_map_app. fold (ctrl_transfers (calls s)).
    fold (ctrl_transfers t). rewrite (ctrl_transfers_bulk t Ht).
    do 2 eexists. cbn [flat_map app]. split; [reflexivity|].
    unfold announcement. cbn [bRequest wValue wIndex data_or_wLength].
    fold total. repeat (split; [reflexivity|]).
    apply unpack_IIII_le32; try assumption.
    apply checks_pass_write in Hok. destruct Hok as (Hbl & _ & _ & Hlt).
    subst total. unfold u32, padded. destruct az.
    + rewrite len_app, len_seq_mul.
      pose proof (Z.mod_pos_bound (len data) bl Hbl).
      pose proof (Z.mod_le (len data) bl ltac:(unfold len; lia) Hbl).
      unfold len in *. lia.
    + unfold len in *. lia.
  - intros length bl az s Hcfg Hok total.
    assert (Hz : u32 0) by (unfold u32; lia).
    destruct (readLargeMemory_trace address length bl az s Hcfg Hok)
      as (t & Et & Ht).
    rewrite Et. unfold ctrl_transfers at 1.
    rewrite !flat_map_app. fold (ctrl_transfers (calls s)).
    fold (ctrl_transfers t). rewrite (ctrl_transfers_bulk t Ht).
    do 2 eexists. cbn [flat_map app]. split; [reflexivity|].
    unfold announcement. cbn [bRequest wValue wIndex data_or_wLength].
    fold total. repeat (split; [reflexivity|]).
    apply unpack_IIII_le32; try assumption.
    apply checks_pass_read in Hok. destruct Hok as (Hbl & _ & _ & Hlt).
    subst total. unfold u32. destruct az.
    + pose proof (Z.mod_pos_bound length bl Hbl).
      pose proof (Z.mod_le length bl ltac:(lia) Hbl). lia.
    + lia.
Qed.

End Laws.

(** ** What [readMemory] does *)

Section ReadLaws.

Context {D : Type} `{UsbDevice D}.

Lemma readMemory_zero address (s : session D) :
  readMemory address 0 s = (inr [], s).
Proof. unfold readMemory. rewrite readMemory_loop_eq. reflexivity. Qed.

(** A read of a length other than 0 makes its first request, and the
    array that comes back cannot be added to the string [data]. *)
Lemma readMemory_run address length (s : session D) :
  length <> 0 ->
  let r := first_read_request address length in
  readMemory address length s
  = (match fst (usb_ctrl_transfer r (dev s)) with
     | inl e => inl e
     | inr _ => inl TypeError
     end,
     mk_session (snd (usb_ctrl_transfer r (dev s)))
                (calls s ++ [Ctrl_transfer r])).
Proof.
  intros Hnz r. subst r. unfold readMemory, first_read_request.
  rewrite readMemory_loop_eq.
  destruct (Z.eqb_spec length 0); [contradiction|].
  destruct (Z.geb_spec length 64).
  - unfold bind at 1. rewrite readSimpleMemory_ok by lia.
    rewrite Z.add_0_r. unfold bind, ctrl_transfer.
    destruct (usb_ctrl_transfer _ (dev s)) as [[e|b] d]; reflexivity.
  - unfold bind at 1. rewrite readSimpleMemory_ok by lia.
    rewrite Z.add_0_r. unfold bind, ctrl_transfer.
    destruct (usb_ctrl_transfer _ (dev s)) as [[e|b] d]; reflexivity.
Qed.

End ReadLaws.

(** ** On the memory-backed device *)

Module StubLaws.

Import Stub.

Lemma reliable : reliable_ctrl stub.
Proof. intros r d. eexists. reflexivity. Qed.


(** *** Memory *)

Lemma store_congr bs : forall m a a',
    a mod 2 ^ 32 = a' mod 2 ^ 32 -> store m a bs = store m a' bs.
Proof.
  induction bs as [|b bs IH]; intros m a a' E; [reflexivity|].
  cbn [store]. unfold poke. rewrite E. apply IH.
  rewrite <- (Z.add_mod_idemp_l a), <- (Z.add_mod_idemp_l a') by lia.
  now rewrite E.
Qed.

Lemma load_congr m n : forall a a',
    a mod 2 ^ 32 = a' mod 2 ^ 32 -> load m a n = load m a' n.
Proof.
  induction n as [|n IH]; intros a a' E; [reflexivity|].
  cbn [load]. rewrite E. f_equal. apply IH.
  rewrite <- (Z.add_mod_idemp_l a), <- (Z.add_mod_idemp_l a') by lia.
  now rewrite E.
Qed.

Lemma store_app l1 l2 : forall m a,
    store m a (l1 ++ l2) = store (store m a l1) (a + len l1) l2.
Proof.
  induction l1 as [|b l1 IH]; intros m a.
  - cbn. now rewrite Z.add_0_r.
  - cbn [app store]. rewrite IH. f_equal. unfold len. cbn [List.length]. lia.
Qed.

Lemma load_plus m n1 n2 : forall a,
    load m a (n1 + n2) = load m a n1 ++ load m (a + Z.of_nat n1) n2.
Proof.
  induction n1 as [|n1 IH]; intros a.
  - cbn. now rewrite Z.add_0_r.
  - cbn [Nat.add load app]. rewrite IH. do 3 f_equal. lia.
Qed.

(** A store leaves every other cell alone. *)
Lemma store_outside bs : forall m a x,
    (forall i, 0 <= i < len bs -> (a + i) mod 2 ^ 32 <> x) ->
    store m a bs x = m x.
Proof.
  induction bs as [|b bs IH]; intros m a x Hx; [reflexivity|].
  cbn [store]. rewrite IH.
  - unfold poke. destruct (Z.eqb_spec x (a mod 2 ^ 32)) as [E|E]; [|reflexivity].
    exfalso. apply (Hx 0).
    + unfold len. cbn [List.length]. lia.
    + rewrite Z.add_0_r. now symmetry.
  - intros i Hi. replace (a + 1 + i) with (a + (1 + i)) by lia.
    apply Hx. unfold len in *. cbn [List.length]. lia.
Qed.

(** Reading back what was stored, when the buffer does not wrap onto
    itself. *)
Lemma load_store bs : forall m a,
    len bs <= 2 ^ 32 ->
    load (store m a bs) a (List.length bs) = bs.
Proof.
  induction bs as [|b bs IH]; intros m a Hlen; [reflexivity|].
  cbn [store List.length load]. f_equal.
  - rewrite store_outside.
    + unfold poke. now rewrite Z.eqb_refl.
    + intros i Hi E. unfold len in *. cbn [List.length] in Hlen.
      change (2 ^ 32) with 4294967296 in *.
      Z.div_mod_to_equations. lia.
  - apply IH. unfold len in *. cbn [List.length] in Hlen. lia.
Qed.

(** The two 16-bit parameters spell the address modulo 2^32. *)
Lemma wire_address_split t q A p :
  wire_address (mk_ctrl t q (Z.shiftr A 16) (Z.land A 0xffff) p)
  = A mod 2 ^ 32.
Proof.
  unfold wire_address, wire16. cbn [wValue wIndex].
  change 0xffff with (Z.ones 16).
  rewrite Z.land_ones, Z.shiftl_mul_pow2, Z.shiftr_div_pow2 by lia.
  change (2 ^ 16) with 65536. change (2 ^ 32) with 4294967296.
  Z.div_mod_to_equations. lia.
Qed.

(** *** Chunked access *)

Lemma device_after_cons r rs (d : stub) :
  device_after (r :: rs) d = device_after rs (snd (usb_ctrl_transfer r d)).
Proof. reflexivity. Qed.

(** Serving the chunk transfers [j, j+m) of a write stores that part of
    the buffer at its place. *)
Lemma after_chunks address data : forall m j d,
    device_after (map (chunk_request address data) (seq j m)) d
    = mk_stub (store (mem d) (address + 64 * Z.of_nat j)
                 (firstn (64 * m) (skipn (64 * j) data)))
              (cursor d).
Proof.
  induction m as [|m IH]; intros j d.
  - rewrite Nat.mul_0_r. cbn. now destruct d.
  - cbn [seq map]. rewrite device_after_cons, IH.
    cbn [usb_ctrl_transfer device snd].
    unfold next. cbn [chunk_request data_or_wLength bRequest mem cursor].
    rewrite Z.eqb_refl. cbn [mem cursor]. f_equal.
    unfold chunk_request at 1. rewrite wire_address_split.
    rewrite (store_congr (chunk data j) (mem d) _ (address + 64 * Z.of_nat j))
      by (apply Z.mod_mod; lia).
    replace (64 * S m)%nat with (64 + 64 * m)%nat by lia.
    rewrite firstn_plus, skipn_skipn, store_app. fold (chunk data j).
    replace (64 + 64 * j)%nat with (64 * S j)%nat by lia.
    destruct (Nat.le_gt_cases (64 * S j) (List.length data)) as [Hfull|Hshort].
    + f_equal. unfold chunk, len.
      rewrite length_firstn, length_skipn. lia.
    + rewrite (skipn_all2 data) by lia. now rewrite firstn_nil.
Qed.

Lemma writeMemory_stores address data (s : session stub) :
  exists t,
    writeMemory address data s
    = (inr tt,
       mk_session (mk_stub (store (mem (dev s)) address data)
                           (cursor (dev s))) t).
Proof.
  unfold writeMemory.
  pose proof (writeMemory_loop_chunks address data reliable
                (chunk_count data) 0 s) as E.
  change (64 * Z.of_nat 0) with 0 in E. rewrite Z.sub_0_r in E.
  rewrite E by (first [reflexivity | unfold len; lia]).
  rewrite after_chunks. change (64 * 0)%nat with 0%nat. cbn [skipn].
  change (64 * Z.of_nat 0) with 0. rewrite Z.add_0_r.
  rewrite firstn_all2.
  - eexists. reflexivity.
  - assert (Hn : Z.of_nat (chunk_count data) = ceil_div (len data) 64).
    { unfold chunk_count, ceil_div. rewrite Z2Nat.id; [reflexivity|].
      unfold len. Z.div_mod_to_equations. lia. }
    unfold ceil_div, len in Hn. Z.div_mod_to_equations. lia.
Qed.

(** C3: on the memory-backed device, [writeMemory(addr, data)] followed
    by [readMemory(addr, len(data))] does not return [data] unless it is
    empty: the write stores the buffer, the read makes its first request
    and then raises [TypeError], as the array the device sent cannot be
    added to the string [readMemory] collects in.  The device does hold
    the buffer at [addr] afterwards. *)
Theorem write_read_raises_TypeError addr data (s : session stub) :
  (data = [] ->
   fst ((writeMemory addr data ;; readMemory addr (len data)) s) = inr [])
  /\ (data <> [] ->
      fst ((writeMemory addr data ;; readMemory addr (len data)) s)
      = inl TypeError)
  /\ (len data <= 4096 ->
      load (mem (dev (snd ((writeMemory addr data ;;
                            readMemory addr (len data)) s))))
           addr (List.length data)
      = data).
Proof.
  destruct (writeMemory_stores addr data s) as [t Ew].
  erewrite bind_inr by exact Ew.
  assert (Hnz : data <> [] -> len data <> 0).
  { destruct data; [contradiction|]. unfold len. cbn [List.length]. lia. }
  split; [|split].
  - intros ->. change (len []) with 0. now rewrite readMemory_zero.
  - intros Hne. rewrite readMemory_run by auto. reflexivity.
  - intros Hlen. destruct data as [|b data'] eqn:Ed; [reflexivity|].
    rewrite <- Ed in *.
    rewrite readMemory_run by (apply Hnz; subst data; discriminate).
    cbn [snd dev usb_ctrl_transfer device]. unfold next, first_read_request.
    cbn [data_or_wLength mem]. apply load_store. lia.
Qed.

End StubLaws.

(** ** Concrete runs *)

Module Runs.

Import Stub.

(** C1: [writeLargeMemory] with [appendZeros=True] on a 5-byte buffer and
    4-byte blocks.  The next multiple of the block length is 8 and
    [ceil(5/4) = 2]; the code appends [5 % 4 = 1] zero byte, announces 6
    bytes in 1 block and writes that single block, the first four
    bytes. *)
Theorem writeLargeMemory_appendZeros_short :
  let s' := snd (writeLargeMemory 0x1000 five 4 true fresh) in
  padded five 4 true = five ++ [x00]
  /\ ctrl_transfers (calls s') = [announcement REQ_WR_LARGE_MEM 0x1000 6 4]
  /\ 6 / 4 = 1
  /\ bulk_writes (calls s') = [[x01; x02; x03; x04]]
  /\ ceil_div (len five) 4 = 2.
Proof. vm_compute. repeat split. Qed.

(** C8 does not hold of every operation: [writeReg] sends its address in
    the payload, with 0 in both wValue and wIndex. *)
Lemma writeReg_address_not_split :
  ctrl_transfers (calls (snd (writeReg 0x12345678 0 fresh)))
  = [mk_ctrl 0x40 REQ_MODIFY_MEM 0 0
       (Data (le32 0x12345678 ++ le32 0 ++ le32 0 ++ le32 0))]
  /\ Z.shiftr 0x12345678 16 = 0x1234
  /\ ~ (forall address,
           u32 address ->
           Forall (splits_address address)
             (ctrl_transfers (calls (snd (writeReg address 0 fresh))))).
Proof.
  assert (E : ctrl_transfers (calls (snd (writeReg 0x12345678 0 fresh)))
              = [mk_ctrl 0x40 REQ_MODIFY_MEM 0 0
                   (Data (le32 0x12345678 ++ le32 0 ++ le32 0 ++ le32 0))])
    by reflexivity.
  split; [exact E|]. split; [reflexivity|].
  intros Hall.
  assert (Ha : u32 0x12345678) by (unfold u32; lia).
  specialize (Hall _ Ha). rewrite E in Hall.
  apply Forall_inv in Hall. destruct Hall as [Hv _].
  cbn [wValue] in Hv. discriminate.
Qed.


(** *** The general statements at concrete inputs *)

Lemma write_read_raises_TypeError_witness :
  [x01] <> []
  /\ fst ((writeMemory 0x1000 [x01] ;; readMemory 0x1000 (len [x01])) fresh)
     = inl TypeError.
Proof.
  assert (Hne : [x01] <> []) by discriminate.
  split; [exact Hne|].
  destruct (StubLaws.write_read_raises_TypeError 0x1000 [x01] fresh)
    as (_ & Hf & _).
  exact (Hf Hne).
Defined.

Lemma writeMemory_chunks_witness :
  reliable_ctrl stub
  /\ fst (writeMemory 0x1fffc0 seventy fresh) = inr tt
  /\ calls (snd (writeMemory 0x1fffc0 seventy fresh))
     = [chunk_transfer 0x1fffc0 seventy 0; chunk_transfer 0x1fffc0 seventy 1].
Proof.
  split; [exact StubLaws.reliable|].
  destruct (writeMemory_chunks 0x1fffc0 seventy fresh StubLaws.reliable)
    as (Ef & Ec & _).
  split; [exact Ef | exact Ec].
Defined.

Lemma writeLargeMemory_unaligned_witness :
  4 <> 0 /\ ~ (4 | len five)
  /\ writeLargeMemory 0x1000 five 4 false fresh
     = (inl (ValueError "Large Data must be a multiple of block length"),
        fresh).
Proof.
  assert (H4 : 4 <> 0) by discriminate.
  assert (Hnd : ~ (4 | len five)).
  { intros [k Hk]. change (len five) with 5 in Hk. lia. }
  split; [exact H4|]. split; [exact Hnd|].
  exact (writeLargeMemory_unaligned 0x1000 five 4 fresh H4 Hnd).
Defined.

Lemma simple_memory_ceiling_witness :
  len (seventy) > 64
  /\ writeSimpleMemory 0x1000 seventy fresh
     = (inl (ValueError "Maximum size of 64bytes"), fresh)
  /\ readSimpleMemory 0x1000 65 fresh
     = (inl (ValueError "Maximum size of 64bytes"), fresh)
  /\ readSimpleMemory 0x1000 0 fresh = (inr (PyStr []), fresh).
Proof.
  assert (Hlen : len seventy > 64) by reflexivity.
  assert (H65 : 65 > 64) by reflexivity.
  destruct (@simple_memory_ceiling stub device) as (Hw & Hr & H0).
  split; [exact Hlen|].
  split; [exact (Hw 0x1000 seventy fresh Hlen)|].
  split; [exact (Hr 0x1000 65 fresh H65) | exact (H0 0x1000 fresh)].
Defined.

Lemma modifyMemory_any_opcode_witness :
  u32 0x1000 /\ u32 0xdeadbeef /\ u32 0xff /\ u32 0x2000
  /\ exists r,
      calls (snd (modifyMemory 99 0x1000 0xdeadbeef 0xff 0x2000 fresh))
      = [Ctrl_transfer r]
      /\ wValue r = 99 /\ wIndex r = 0
      /\ fst (modifyMemory 99 0x1000 0xdeadbeef 0xff 0x2000 fresh) = inr tt.
Proof.
  assert (H1 : u32 0x1000) by (unfold u32; lia).
  assert (H2 : u32 0xdeadbeef) by (unfold u32; lia).
  assert (H3 : u32 0xff) by (unfold u32; lia).
  assert (H4 : u32 0x2000) by (unfold u32; lia).
  repeat (split; [assumption|]).
  destruct (modifyMemory_any_opcode 99 0x1000 0xdeadbeef 0xff 0x2000 fresh
              H1 H2 H3 H4) as (r & Ec & _ & _ & Ev & Ei & _ & Ef).
  exists r. repeat split; assumption.
Defined.

(** [memcpy(dest=0x1000, src=0x2000, n=4)]: the first field of the
    payload is the source address, the fourth the destination. *)
Lemma memcpy_wire_witness :
  u32 0x1000 /\ u32 0x2000 /\ u32 4
  /\ exists r payload,
      calls (snd (memcpy 0x1000 0x2000 4 fresh)) = [Ctrl_transfer r]
      /\ wValue r = 7
      /\ data_or_wLength r = Data payload
      /\ unpack_IIII payload = Some (0x2000, 4, 0, 0x1000).
Proof.
  assert (H1 : u32 0x1000) by (unfold u32; lia).
  assert (H2 : u32 0x2000) by (unfold u32; lia).
  assert (H3 : u32 4) by (unfold u32; lia).
  repeat (split; [assumption|]).
  exact (memcpy_wire 0x1000 0x2000 4 fresh H1 H2 H3).
Defined.

Lemma address_on_the_wire_witness :
  u32 0x12345678
  /\ exists r,
      calls (snd (writeSimpleMemory 0x12345678 five fresh))
      = [Ctrl_transfer r]
      /\ wValue r = 0x1234 /\ wIndex r = 0x5678.
Proof.
  assert (Ha : u32 0x12345678) by (unfold u32; lia).
  split; [exact Ha|].
  destruct (@address_on_the_wire stub device 0x12345678 Ha) as (Hw & _).
  assert (Hlen : len five <= 64) by discriminate.
  destruct (Hw five fresh Hlen) as (r & Ec & Ev & Ei).
  exists r. split; [exact Ec|]. split; [exact Ev | exact Ei].
Defined.


End Runs.

(** * Further properties of the driver *)

Section MoreLaws.

Context {D : Type} `{UsbDevice D}.

(** *** Sequences of control transfers *)

Lemma transfer_all_app rs rs' s :
  transfer_all (rs ++ rs') s = (transfer_all rs ;; transfer_all rs') s.
Proof.
  revert s. induction rs as [|r rs IH]; intros s; [reflexivity|].
  cbn [app transfer_all]. unfold bind.
  destruct (ctrl_transfer r s) as [[e|b] s1]; [reflexivity|].
  rewrite IH. reflexivity.
Qed.


(** *** [writeMemory] as a sequence of chunk transfers *)

Lemma writeMemory_loop_transfer_all address data :
  forall m j s,
    64 * Z.of_nat j <= len data ->
    Z.to_nat (ceil_div (len data - 64 * Z.of_nat j) 64) = m ->
    writeMemory_loop address data
      (len data - 64 * Z.of_nat j) (64 * Z.of_nat j) s
    = transfer_all (map (chunk_request address data) (seq j m)) s.
Proof.
  induction m as [|m IH]; intros j s Hj Hm;
    rewrite writeMemory_loop_eq;
    destruct (Z.eqb_spec (len data - 64 * Z.of_nat j) 0) as [E|E].
  - reflexivity.
  - exfalso. unfold ceil_div in Hm. Z.div_mod_to_equations. lia.
  - exfalso. rewrite E in Hm. discriminate.
  - rewrite slice_chunk by lia.
    replace (Z.to_nat (64 * Z.of_nat j)) with (64 * j)%nat by lia.
    change (Z.to_nat 64) with 64%nat. fold (chunk data j).
    assert (Hc : len (chunk data j) <= 64).
    { unfold chunk, len.
      pose proof (firstn_le_length 64 (skipn (64 * j) data)). lia. }
    cbn [seq map transfer_all].
    unfold bind at 1. rewrite writeSimpleMemory_ok by exact Hc.
    fold (chunk_request address data j). unfold bind.
    destruct (ctrl_transfer (chunk_request address data j) s) as [[e|b] s1];
      [reflexivity|].
    cbn [ret].
    destruct (Z.gtb_spec (len data - 64 * Z.of_nat j) 64) as [G|G].
    + replace (len data - 64 * Z.of_nat j - 64)
        with (len data - 64 * Z.of_nat (S j)) by lia.
      replace (64 * Z.of_nat j + 64) with (64 * Z.of_nat (S j)) by lia.
      apply IH; [lia|].
      replace (len data - 64 * Z.of_nat (S j))
        with (len data - 64 * Z.of_nat j - 64) by lia.
      rewrite ceil_div_64_step by lia. lia.
    + assert (m = O).
      { unfold ceil_div in Hm. Z.div_mod_to_equations. lia. }
      subst m. reflexivity.
Qed.

Lemma writeMemory_transfer_all address data s :
  writeMemory address data s
  = transfer_all (map (chunk_request address data)
                    (seq 0 (chunk_count data))) s.
Proof.
  unfold writeMemory.
  pose proof (writeMemory_loop_transfer_all address data
                (chunk_count data) 0 s) as E.
  change (64 * Z.of_nat 0) with 0 in E. rewrite Z.sub_0_r in E.
  apply E; [unfold len; lia | reflexivity].
Qed.


Lemma chunk_count_nat data :
  Z.of_nat (chunk_count data) = ceil_div (len data) 64.
Proof.
  unfold chunk_count, ceil_div. rewrite Z2Nat.id; [reflexivity|].
  unfold len. Z.div_mod_to_equations. lia.
Qed.

Lemma chunk_app_l d1 d2 i :
  (64 * i + 64 <= List.length d1)%nat -> chunk (d1 ++ d2) i = chunk d1 i.
Proof.
  intros Hi. unfold chunk. rewrite skipn_app, firstn_app, length_skipn.
  replace (64 - (List.length d1 - 64 * i))%nat with O by lia.
  cbn [firstn]. apply app_nil_r.
Qed.

Lemma chunk_app_r d1 d2 n1 j :
  List.length d1 = (64 * n1)%nat -> chunk (d1 ++ d2) (n1 + j) = chunk d2 j.
Proof.
  intros Hn. unfold chunk. rewrite skipn_app.
  rewrite (skipn_all2 d1) by lia. cbn [app]. do 2 f_equal. lia.
Qed.

(** X2: a buffer whose first part fills whole chunks can be written in
    two calls: on any device, [writeMemory(address, d1 + d2)] does what
    [writeMemory(address, d1)] followed by
    [writeMemory(address + len(d1), d2)] does, result, trace and device
    alike. *)
Theorem writeMemory_app address d1 d2 s :
  (64 | len d1) ->
  writeMemory address (d1 ++ d2) s
  = (writeMemory address d1 ;; writeMemory (address + len d1) d2) s.
Proof.
  intros [q Hq].
  assert (Hq0 : 0 <= q) by (unfold len in Hq; lia).
  set (n1 := Z.to_nat q).
  assert (Hn1 : List.length d1 = (64 * n1)%nat) by (unfold len in Hq; lia).
  assert (Ec1 : chunk_count d1 = n1).
  { apply Nat2Z.inj. rewrite chunk_count_nat. unfold ceil_div. rewrite Hq.
    subst n1. Z.div_mod_to_equations. lia. }
  assert (Ec : chunk_count (d1 ++ d2) = (n1 + chunk_count d2)%nat).
  { apply Nat2Z.inj. rewrite Nat2Z.inj_add, !chunk_count_nat.
    unfold ceil_div. rewrite len_app, Hq. subst n1.
    Z.div_mod_to_equations. lia. }
  transitivity ((transfer_all (map (chunk_request address d1) (seq 0 n1)) ;;
                 transfer_all (map (chunk_request (address + len d1) d2)
                                 (seq 0 (chunk_count d2)))) s).
  - rewrite writeMemory_transfer_all, Ec, <- transfer_all_app. f_equal.
    rewrite seq_app, map_app. f_equal.
    + apply map_ext_in. intros i Hi. apply in_seq in Hi.
      unfold chunk_request. rewrite chunk_app_l by lia. reflexivity.
    + cbn [Nat.add]. generalize (chunk_count d2) as n2.
      assert (G : forall n2 start,
                 map (chunk_request address (d1 ++ d2)) (seq (n1 + start) n2)
                 = map (chunk_request (address + len d1) d2) (seq start n2)).
      { induction n2 as [|n2 IH]; intros start; [reflexivity|].
        cbn [seq map]. f_equal.
        - unfold chunk_request. rewrite (chunk_app_r d1 d2 n1 start Hn1).
          replace (address + 64 * Z.of_nat (n1 + start))
            with (address + len d1 + 64 * Z.of_nat start)
            by (unfold len; lia).
          reflexivity.
        - replace (S (n1 + start)) with (n1 + S start)%nat by lia. apply IH. }
      intros n2. specialize (G n2 O). now rewrite Nat.add_0_r in G.
  - unfold bind. rewrite <- Ec1, <- writeMemory_transfer_all.
    destruct (writeMemory address d1 s) as [[e|u] s1]; [reflexivity|].
    now rewrite writeMemory_transfer_all.
Qed.

(** *** [readMemory] *)

(** X3: what [readMemory] does on any device.  A length of 0 returns the
    empty string and transfers nothing.  Any other length makes exactly
    one read request, at [address] and for 64 bytes (or [length] when
    that is less), and then fails: with the transfer's error if the
    transfer failed, and with [TypeError] if it succeeded. *)
Theorem readMemory_one_request address length s :
  (length = 0 -> readMemory address length s = (inr [], s))
  /\ (length <> 0 ->
      let r := first_read_request address length in
      calls (snd (readMemory address length s))
      = calls s ++ [Ctrl_transfer r]
      /\ fst (readMemory address length s)
         = match fst (usb_ctrl_transfer r (dev s)) with
           | inl e => inl e
           | inr _ => inl TypeError
           end).
Proof.
  split.
  - intros ->. apply readMemory_zero.
  - intros Hnz r. rewrite (readMemory_run address length s Hnz). fold r.
    split; reflexivity.
Qed.

(** X4: [readMemory] does not check the sign of [length]: a negative
    length goes to the device as it is, in a single read request. *)
Theorem readMemory_negative_length address length s :
  length < 0 ->
  calls (snd (readMemory address length s))
  = calls s ++ [Ctrl_transfer
                  (mk_ctrl 0xc0 REQ_READ_MEM
                     (Z.shiftr address 16) (Z.land address 0xffff)
                     (Length length))].
Proof.
  intros Hneg. rewrite readMemory_run by lia. unfold first_read_request.
  destruct (Z.geb_spec length 64); [lia | reflexivity].
Qed.

(** *** Packed fields out of range *)

Lemma pack_I_cases v :
  (u32 v /\ pack_I v = inr (le32 v)) \/ (~ u32 v /\ pack_I v = inl StructError).
Proof.
  unfold pack_I, u32.
  destruct (Z.leb_spec 0 v); destruct (Z.ltb_spec v (2 ^ 32)); cbn [andb];
    first [left; split; [lia | reflexivity] | right; split; [lia | reflexivity]].
Qed.

(** X5: [modifyMemory] transfers nothing when one of its four fields does
    not fit an unsigned 32-bit slot: [pack] raises [struct.error] and the
    session is left as it was. *)
Theorem modifyMemory_field_out_of_range opcode address1 data mask address2 s :
  ~ (u32 address1 /\ u32 data /\ u32 mask /\ u32 address2) ->
  modifyMemory opcode address1 data mask address2 s = (inl StructError, s).
Proof.
  intros Hn. unfold modifyMemory, pack_IIII, bind, lift.
  destruct (pack_I_cases address1) as [[H1 ->]|[_ ->]]; [|reflexivity].
  destruct (pack_I_cases data) as [[H2 ->]|[_ ->]]; [|reflexivity].
  destruct (pack_I_cases mask) as [[H3 ->]|[_ ->]]; [|reflexivity].
  destruct (pack_I_cases address2) as [[H4 ->]|[_ ->]]; [|reflexivity].
  exfalso. apply Hn. split; [exact H1|]. split; [exact H2|].
  split; [exact H3 | exact H4].
Qed.

Lemma lor_flag_not_u32 a : ~ u32 a -> ~ u32 (Z.lor a FLAG_KEEP_POWER_ON).
Proof.
  unfold u32, FLAG_KEEP_POWER_ON. intros Hn [H0 H1]. apply Hn.
  apply Z.lor_nonneg in H0. destruct H0 as [Ha _]. split; [exact Ha|].
  destruct (Z.lt_ge_cases a (2 ^ 32)) as [Hlt|Hge]; [exact Hlt|exfalso].
  assert (Hpos : 0 < Z.lor a 16).
  { assert (0 <= Z.lor a 16) by (apply Z.lor_nonneg; lia).
    assert (Z.lor a 16 <> 0) by (intros E; apply Z.lor_eq_0_iff in E; lia).
    lia. }
  apply Z.log2_lt_pow2 in H1; [|exact Hpos].
  rewrite Z.log2_lor in H1 by lia.
  assert (32 <= Z.log2 a) by (apply Z.log2_le_pow2; lia).
  lia.
Qed.

(** *** [run] *)

Lemma run_run address (keep_power : bool) (s : session D) :
  u32 address ->
  let data := if keep_power then Z.lor address FLAG_KEEP_POWER_ON
              else address in
  let r := mk_ctrl 0x40 REQ_RUN_IN_ADDR
             (Z.shiftr address 16) (Z.land address 0xffff)
             (Data (le32 data)) in
  run address keep_power s
  = (match fst (usb_ctrl_transfer r (dev s)) with
     | inl e => inl e
     | inr _ => inr tt
     end,
     mk_session (snd (usb_ctrl_transfer r (dev s)))
                (calls s ++ [Ctrl_transfer r])).
Proof.
  intros Ha data r. unfold run. fold data.
  assert (Hd : u32 data).
  { subst data. destruct keep_power; [now apply lor_flag_u32 | assumption]. }
  unfold bind at 1, lift. rewrite (pack_I_u32 _ Hd). cbn [ret].
  unfold bind, ctrl_transfer. fold r.
  destruct (usb_ctrl_transfer r (dev s)) as [[e|b] d]; reflexivity.
Qed.

(** X6: for a 32-bit address, [run] issues exactly one run-in-address
    transfer, the address split over wValue and wIndex, whose four-byte
    payload is the little-endian [address | 0x10] when [keep_power] is set
    and [address] itself when it is not; it fails only if the transfer
    does. *)
Theorem run_wire address keep_power s :
  u32 address ->
  exists r payload,
    calls (snd (run address keep_power s)) = calls s ++ [Ctrl_transfer r]
    /\ bmRequestType r = 0x40 /\ bRequest r = REQ_RUN_IN_ADDR
    /\ splits_address address r
    /\ data_or_wLength r = Data payload
    /\ unpack_I payload
       = inr (if keep_power then Z.lor address FLAG_KEEP_POWER_ON else address)
    /\ fst (run address keep_power s)
       = match fst (usb_ctrl_transfer r (dev s)) with
         | inl e => inl e
         | inr _ => inr tt
         end.
Proof.
  intros Ha. rewrite (run_run address keep_power s Ha).
  do 2 eexists. cbn [fst snd calls]. split; [reflexivity|].
  cbn [bmRequestType bRequest data_or_wLength].
  repeat (split; [reflexivity|]). split; [split; reflexivity|].
  split; [reflexivity|]. split; [|reflexivity].
  apply unpack_le32.
  destruct keep_power; [now apply lor_flag_u32 | assumption].
Qed.

(** X7: outside the 32-bit range [run] raises [struct.error] before any
    transfer, with or without the power flag. *)
Theorem run_address_out_of_range address keep_power s :
  ~ u32 address ->
  run address keep_power s = (inl StructError, s).
Proof.
  intros Hn. unfold run, bind, lift.
  assert (Hd : ~ u32 (if keep_power then Z.lor address FLAG_KEEP_POWER_ON
                      else address)).
  { destruct keep_power; [now apply lor_flag_not_u32 | assumption]. }
  destruct (pack_I_cases (if keep_power then Z.lor address FLAG_KEEP_POWER_ON
                          else address)) as [[Hu _]|[_ ->]];
    [contradiction | reflexivity].
Qed.

(** *** The register helpers *)

Lemma modify_wire_intro opcode address1 data mask address2 s :
  u32 address1 -> u32 data -> u32 mask -> u32 address2 ->
  modify_wire opcode address1 data mask address2
    (modifyMemory opcode address1 data mask address2) s.
Proof.
  intros H1 H2 H3 H4. unfold modify_wire.
  rewrite (modifyMemory_run opcode _ _ _ _ s H1 H2 H3 H4).
  do 2 eexists. cbn [fst snd calls]. split; [reflexivity|].
  cbn [bmRequestType bRequest wValue wIndex data_or_wLength].
  repeat (split; [reflexivity|]). now apply unpack_IIII_le32.
Qed.

(** X8: what each register helper puts on the wire, for 32-bit
    arguments: one modify-memory transfer with the helper's sub-opcode and
    its arguments in the fields (address1, data, mask, address2) as
    follows, the unused fields being zero. *)
Theorem register_helpers_wire address value mask source dest s :
  u32 address -> u32 value -> u32 mask -> u32 source -> u32 dest ->
  modify_wire 0 address value 0 0 (writeReg address value) s
  /\ modify_wire 1 address 0 mask 0 (maskRegAND address mask) s
  /\ modify_wire 2 address 0 mask 0 (maskRegOR address mask) s
  /\ modify_wire 3 address 0 mask 0 (maskRegNAND address mask) s
  /\ modify_wire 4 address value mask 0 (writeRegBits address mask value) s
  /\ modify_wire 5 dest 0 0 source (copyReg source dest) s
  /\ modify_wire 6 dest 0 mask source (copyRegMaskAND source dest mask) s.
Proof.
  intros Ha Hv Hm Hs Hd.
  assert (H0 : u32 0) by (unfold u32; lia).
  repeat split; apply modify_wire_intro; assumption.
Qed.

(** *** [identify] and [readReg] *)

Lemma chr_ord b : chr (ord b) = b.
Proof.
  unfold chr, byte_of_Z, ord.
  pose proof (Byte.to_N_bounded b) as Hb.
  rewrite Z.mod_small by lia. rewrite N2Z.id, Byte.of_to_N. reflexivity.
Qed.

Lemma map_chr_ord (b : buffer) : map (fun x => chr (ord x)) b = b.
Proof.
  induction b as [|x b IH]; [reflexivity|].
  cbn [map]. now rewrite chr_ord, IH.
Qed.

(** X9: [identify] is one device-to-host transfer asking for 8 bytes, and
    it hands back what the device answered, byte for byte and whatever its
    length (or the transfer's error). *)
Theorem identify_returns_reply s :
  let r := mk_ctrl 0xc0 REQ_IDENTIFY_HOST 0 0 (Length 8) in
  identify s
  = (fst (usb_ctrl_transfer r (dev s)),
     mk_session (snd (usb_ctrl_transfer r (dev s)))
                (calls s ++ [Ctrl_transfer r])).
Proof.
  intros r. unfold identify, bind, ctrl_transfer. fold r.
  destruct (usb_ctrl_transfer r (dev s)) as [[e|b] d]; [reflexivity|].
  cbn [ret fst snd]. now rewrite map_chr_ord.
Qed.

(** X10: [readReg] asks for 4 bytes at [address] and decodes the answer as
    a little-endian 32-bit value; an answer that is not 4 bytes long makes
    it raise [struct.error], after the transfer. *)
Theorem readReg_decodes address s reply d :
  let r := mk_ctrl 0xc0 REQ_READ_MEM
             (Z.shiftr address 16) (Z.land address 0xffff) (Length 4) in
  usb_ctrl_transfer r (dev s) = (inr reply, d) ->
  calls (snd (readReg address s)) = calls s ++ [Ctrl_transfer r]
  /\ (forall v, u32 v -> reply = le32 v -> fst (readReg address s) = inr v)
  /\ (List.length reply <> 4%nat -> fst (readReg address s) = inl StructError).
Proof.
  intros r Er. unfold readReg. unfold bind at 1 2 3.
  rewrite readSimpleMemory_ok by lia. unfold bind, ctrl_transfer. fold r.
  rewrite Er. unfold ret, lift, unpack_I_seq.
  split; [|split].
  - destruct (unpack_I reply); reflexivity.
  - intros v Hv ->. now rewrite unpack_le32.
  - intros Hl. destruct reply as [|b0 [|b1 [|b2 [|b3 [|b4 rest]]]]];
      try reflexivity. now contradiction Hl.
Qed.

(** *** Argument checks of the large transfers *)

(** X11: a block length of 0 makes both large transfers raise
    [ZeroDivisionError] before anything is looked up or transferred,
    whatever the flag. *)
Theorem large_transfer_zero_block address data length appendZeros s :
  writeLargeMemory address data 0 appendZeros s = (inl ZeroDivisionError, s)
  /\ readLargeMemory address length 0 appendZeros s
     = (inl ZeroDivisionError, s).
Proof. destruct appendZeros; split; reflexivity. Qed.

(** X12: without [appendZeros], [readLargeMemory] refuses a length that is
    not a multiple of the (non-zero) block length with [ValueError], the
    session left as it was. *)
Theorem readLargeMemory_unaligned address length blockLength s :
  blockLength <> 0 ->
  ~ (blockLength | length) ->
  readLargeMemory address length blockLength false s
  = (inl (ValueError "Large Data must be a multiple of block length"), s).
Proof.
  intros Hb Hnd. unfold readLargeMemory.
  assert (Hm : length mod blockLength <> 0).
  { intros E. apply Hnd. apply Z.mod_divide; assumption. }
  apply bind_inl. erewrite bind_inr by (apply py_mod_run; assumption).
  destruct (Z.eqb_spec (length mod blockLength) 0); [contradiction|].
  reflexivity.
Qed.

(** X13: on a length that is a multiple of the block length,
    [appendZeros] changes nothing: both large transfers behave the same
    with and without the flag. *)
Theorem appendZeros_aligned address data length blockLength s :
  blockLength <> 0 ->
  ((blockLength | len data) ->
   writeLargeMemory address data blockLength true s
   = writeLargeMemory address data blockLength false s)
  /\ ((blockLength | length) ->
      readLargeMemory address length blockLength true s
      = readLargeMemory address length blockLength false s).
Proof.
  intros Hb. split; intros Hd; apply Z.mod_divide in Hd; try assumption.
  - unfold writeLargeMemory. unfold bind at 1 8.
    rewrite !(bind_inr _ _ _ _ _ (py_mod_run _ _ s Hb)), Hd.
    cbn [Z.eqb negb ret]. change (seq_mul [x00] 0) with (@nil byte).
    now rewrite app_nil_r.
  - unfold readLargeMemory. unfold bind at 1 8.
    rewrite !(bind_inr _ _ _ _ _ (py_mod_run _ _ s Hb)), Hd.
    cbn [Z.eqb negb ret]. now rewrite Z.add_0_r.
Qed.

(** *** The bulk phase of [writeLargeMemory] *)

Lemma padded_u32 data blockLength appendZeros :
  0 < blockLength -> len data < 2 ^ 31 ->
  u32 (len (padded data blockLength appendZeros)).
Proof.
  intros Hbl Hlt. unfold u32, padded.
  assert (0 <= len data) by (unfold len; lia).
  destruct appendZeros; [|lia].
  rewrite len_app, len_seq_mul.
  pose proof (Z.mod_pos_bound (len data) blockLength Hbl).
  pose proof (Z.mod_le (len data) blockLength ltac:(lia) Hbl). lia.
Qed.

Lemma padded_aligned data blockLength appendZeros :
  len data mod blockLength = 0 -> padded data blockLength appendZeros = data.
Proof.
  intros E. unfold padded. destruct appendZeros; [|reflexivity].
  rewrite E. apply app_nil_r.
Qed.

(** Past its argument checks, [writeLargeMemory] is the lookup, the
    announcement and the loop over the rebound [data]. *)
Lemma writeLargeMemory_checked address data blockLength appendZeros s :
  checks_pass (WriteLarge address data blockLength appendZeros) = true ->
  let data' := padded data blockLength appendZeros in
  writeLargeMemory address data blockLength appendZeros s
  = (cfg <- get_active_configuration ;;
     ep <- first_endpoint cfg ENDPOINT_OUT ;;
     ctrl_transfer (announcement REQ_WR_LARGE_MEM address (len data')
                      blockLength) ;;
     writeLargeMemory_loop ep data' blockLength
       (len data' / blockLength) 0) s.
Proof.
  intros Hok data'.
  apply checks_pass_write in Hok. destruct Hok as (Hbl & Hal & Ha & Hlt).
  assert (Hz : u32 0) by (unfold u32; lia).
  assert (Hu : u32 (len data')) by (now apply padded_u32).
  assert (Epad :
            (if appendZeros
             then append <- py_mod (len data) blockLength ;;
                  ret (data ++ seq_mul [x00] append)
             else r <- py_mod (len data) blockLength ;;
                  if negb (r =? 0)
                  then raise (ValueError "Large Data must be a multiple of block length")
                  else ret data) s = (inr data', s)).
  { subst data'. unfold padded. destruct appendZeros.
    - erewrite bind_inr by (apply py_mod_run; lia). reflexivity.
    - erewrite bind_inr by (apply py_mod_run; lia).
      destruct Hal as [Hal|Hal]; [discriminate|].
      rewrite Hal. reflexivity. }
  unfold writeLargeMemory.
  erewrite bind_inr by exact Epad.
  erewrite bind_inr by (apply py_div_run; unfold u32 in *; lia).
  erewrite bind_inr by (apply pack_IIII_u32; assumption).
  reflexivity.
Qed.

Lemma block_slice data blockLength j :
  0 < blockLength ->
  blockLength * Z.of_nat j <= len data ->
  slice data (blockLength * Z.of_nat j)
    (blockLength * Z.of_nat j + blockLength)
  = block data blockLength j.
Proof.
  intros Hbl Hj. rewrite slice_chunk by lia. unfold block.
  rewrite Z2Nat.inj_mul, Nat2Z.id by lia. reflexivity.
Qed.

Lemma bulk_after_cons e b bs (d : D) :
  bulk_after e (b :: bs) d = bulk_after e bs (snd (usb_ep_write e b 100 d)).
Proof. reflexivity. Qed.

Lemma writeLargeMemory_loop_blocks e data blockLength :
  reliable_bulk_out D ->
  0 < blockLength ->
  forall m j s,
    blockLength * Z.of_nat (j + m) <= len data ->
    writeLargeMemory_loop (Some e) data blockLength
      (Z.of_nat m) (blockLength * Z.of_nat j) s
    = (inr tt,
       mk_session
         (bulk_after e (map (block data blockLength) (seq j m)) (dev s))
         (calls s ++ map (fun b => Ep_write e b 100)
                       (map (block data blockLength) (seq j m)))).
Proof.
  intros Hrel Hbl. induction m as [|m IH]; intros j s Hj;
    rewrite writeLargeMemory_loop_eq.
  - cbn. rewrite app_nil_r. now destruct s.
  - destruct (Z.gtb_spec (Z.of_nat (S m)) 0); [|lia].
    rewrite block_slice by nia.
    cbn [seq map]. rewrite bulk_after_cons.
    unfold bind, ep_write.
    destruct (Hrel e (block data blockLength j) 100 (dev s)) as [u Eu].
    destruct (usb_ep_write e (block data blockLength j) 100 (dev s))
      as [res d].
    cbn [fst] in Eu. subst res. cbn [snd].
    replace (Z.of_nat (S m) - 1) with (Z.of_nat m) by lia.
    replace (blockLength * Z.of_nat j + blockLength)
      with (blockLength * Z.of_nat (S j)) by lia.
    rewrite IH by (replace (S j + m)%nat with (j + S m)%nat by lia; exact Hj).
    cbn [dev calls]. rewrite <- app_assoc. reflexivity.
Qed.

Lemma blocks_cover (data : buffer) n :
  forall m j, List.concat (map (fun i => firstn n (skipn (n * i) data))
                             (seq j m))
              = firstn (n * m) (skipn (n * j) data).
Proof.
  induction m as [|m IH]; intros j.
  - rewrite Nat.mul_0_r. reflexivity.
  - cbn [seq map List.concat]. rewrite IH.
    replace (n * S m)%nat with (n + n * m)%nat by lia.
    rewrite firstn_plus, skipn_skipn. do 3 f_equal. lia.
Qed.

Lemma concat_blocks data blockLength :
  List.concat (blocks data blockLength)
  = firstn (Z.to_nat blockLength * Z.to_nat (len data / blockLength)) data.
Proof.
  unfold blocks, block. rewrite blocks_cover.
  rewrite Nat.mul_0_r. reflexivity.
Qed.

Lemma blocks_full data blockLength :
  0 < blockLength ->
  Forall (fun b => len b = blockLength) (blocks data blockLength).
Proof.
  intros Hbl. apply Forall_forall. intros b Hb. unfold blocks in Hb.
  apply in_map_iff in Hb. destruct Hb as (i & <- & Hi). apply in_seq in Hi.
  unfold block, len. rewrite length_firstn, length_skipn.
  set (n := Z.to_nat blockLength) in *.
  set (q := Z.to_nat (len data / blockLength)) in *.
  assert (Hq : (n * q <= List.length data)%nat).
  { subst n q. apply Nat2Z.inj_le. rewrite Nat2Z.inj_mul, !Z2Nat.id;
      [|apply Z.div_pos; unfold len; lia|lia].
    apply (Z.mul_div_le (len data) blockLength Hbl). }
  assert (Hi' : (n * i + n <= n * q)%nat).
  { replace (n * i + n)%nat with (n * S i)%nat by lia.
    apply Nat.mul_le_mono_l. lia. }
  rewrite Nat.min_l by lia. subst n. lia.
Qed.

Lemma concat_blocks_aligned data blockLength appendZeros :
  0 < blockLength ->
  (blockLength | len data) ->
  List.concat (blocks (padded data blockLength appendZeros) blockLength)
  = data.
Proof.
  intros Hbl Hd. apply Z.mod_divide in Hd; [|lia].
  rewrite (padded_aligned _ _ _ Hd), concat_blocks.
  apply firstn_all2.
  pose proof (Z.div_mod (len data) blockLength ltac:(lia)) as Hdm.
  rewrite Hd, Z.add_0_r in Hdm.
  assert (Hq : 0 <= len data / blockLength)
    by (apply Z.div_pos; unfold len; lia).
  apply Nat2Z.inj_le. rewrite Nat2Z.inj_mul, !Z2Nat.id by lia.
  unfold len in *. lia.
Qed.

(** Past the checks and with an OUT endpoint, on a device that fails
    nowhere. *)
Lemma writeLargeMemory_run address data blockLength appendZeros e s :
  checks_pass (WriteLarge address data blockLength appendZeros) = true ->
  reliable_ctrl D -> reliable_bulk_out D ->
  endpoint_lookup D ENDPOINT_OUT (Some e) ->
  let data' := padded data blockLength appendZeros in
  let ann := announcement REQ_WR_LARGE_MEM address (len data') blockLength in
  writeLargeMemory address data blockLength appendZeros s
  = (inr tt,
     mk_session
       (bulk_after e (blocks data' blockLength)
          (snd (usb_ctrl_transfer ann
                  (snd (usb_get_active_configuration (dev s))))))
       (calls s
        ++ [Get_active_configuration; Find_descriptor ENDPOINT_OUT;
            Ctrl_transfer ann]
        ++ map (fun b => Ep_write e b 100) (blocks data' blockLength))).
Proof.
  intros Hok Hrc Hrb Hep data' ann.
  rewrite writeLargeMemory_checked by exact Hok. fold data'. fold ann.
  apply checks_pass_write in Hok. destruct Hok as (Hbl & _ & _ & _).
  destruct (Hep (dev s)) as (cfg & intf & E1 & E2 & E3).
  unfold bind, get_active_configuration, first_endpoint, ctrl_transfer.
  destruct (usb_get_active_configuration (dev s)) as [res d1].
  cbn [fst] in E1. subst res. rewrite E2, E3. cbn [dev calls snd].
  destruct (Hrc ann d1) as [b Eb].
  destruct (usb_ctrl_transfer ann d1) as [res d2].
  cbn [fst] in Eb. subst res. cbn [snd].
  assert (Hq : 0 <= len data' / blockLength)
    by (apply Z.div_pos; unfold len; lia).
  pose proof (writeLargeMemory_loop_blocks e data' blockLength Hrb Hbl
                (Z.to_nat (len data' / blockLength)) 0) as L.
  rewrite Z2Nat.id in L by exact Hq.
  change (blockLength * Z.of_nat 0) with (blockLength * 0) in L.
  rewrite Z.mul_0_r in L. rewrite L.
  - cbn [dev calls]. fold (blocks data' blockLength).
    rewrite <- !app_assoc. reflexivity.
  - cbn [Nat.add]. rewrite Z2Nat.id by exact Hq.
    pose proof (Z.mul_div_le (len data') blockLength Hbl). lia.
Qed.

(** X14: on a device that fails nowhere and has a bulk-OUT endpoint, a
    [writeLargeMemory] that passes its checks returns normally after, in
    this order, the configuration lookup, the endpoint lookup, the
    announcement and [len(data') // blockLength] bulk writes on that
    endpoint with timeout 100, where [data'] is the buffer as padded.
    Every block has [blockLength] bytes; together the blocks are the first
    [blockLength * (len(data') // blockLength)] bytes of [data'] (a
    shorter tail is not sent), and they are [data] itself when its length
    is a multiple of the block length. *)
Theorem writeLargeMemory_blocks address data blockLength appendZeros e s :
  checks_pass (WriteLarge address data blockLength appendZeros) = true ->
  reliable_ctrl D -> reliable_bulk_out D ->
  endpoint_lookup D ENDPOINT_OUT (Some e) ->
  let data' := padded data blockLength appendZeros in
  let bs := blocks data' blockLength in
  fst (writeLargeMemory address data blockLength appendZeros s) = inr tt
  /\ calls (snd (writeLargeMemory address data blockLength appendZeros s))
     = calls s
       ++ [Get_active_configuration; Find_descriptor ENDPOINT_OUT;
           Ctrl_transfer (announcement REQ_WR_LARGE_MEM address (len data')
                            blockLength)]
       ++ map (fun b => Ep_write e b 100) bs
  /\ Z.of_nat (List.length bs) = len data' / blockLength
  /\ Forall (fun b => len b = blockLength) bs
  /\ List.concat bs
     = firstn (Z.to_nat (blockLength * (len data' / blockLength))) data'
  /\ ((blockLength | len data) -> List.concat bs = data).
Proof.
  intros Hok Hrc Hrb Hep data' bs.
  rewrite (writeLargeMemory_run _ _ _ _ e s Hok Hrc Hrb Hep).
  fold data'. fold bs. cbn [fst snd calls].
  apply checks_pass_write in Hok. destruct Hok as (Hbl & _ & _ & _).
  assert (Hq : 0 <= len data' / blockLength)
    by (apply Z.div_pos; unfold len; lia).
  split; [reflexivity|]. split; [reflexivity|].
  split.
  { subst bs. unfold blocks. rewrite length_map, length_seq.
    now apply Z2Nat.id. }
  split; [now apply blocks_full|].
  assert (Ec : List.concat bs
               = firstn (Z.to_nat (blockLength * (len data' / blockLength)))
                   data').
  { subst bs. rewrite concat_blocks. f_equal.
    rewrite Z2Nat.inj_mul by lia. reflexivity. }
  split; [exact Ec|].
  intros Hd. subst bs data'. now apply concat_blocks_aligned.
Qed.

(** X15: the endpoint lookup is not checked before the announcement.  On
    a device without a bulk-OUT endpoint, a [writeLargeMemory] that passes
    its checks still announces the transfer; it then raises
    [AttributeError] at the first block, no bulk write being made, and
    returns normally only when there is no block to write. *)
Theorem writeLargeMemory_no_endpoint address data blockLength appendZeros s :
  checks_pass (WriteLarge address data blockLength appendZeros) = true ->
  reliable_ctrl D ->
  endpoint_lookup D ENDPOINT_OUT None ->
  let data' := padded data blockLength appendZeros in
  calls (snd (writeLargeMemory address data blockLength appendZeros s))
  = calls s
    ++ [Get_active_configuration; Find_descriptor ENDPOINT_OUT;
        Ctrl_transfer (announcement REQ_WR_LARGE_MEM address (len data')
                         blockLength)]
  /\ fst (writeLargeMemory address data blockLength appendZeros s)
     = if len data' / blockLength >? 0 then inl AttributeError else inr tt.
Proof.
  intros Hok Hrc Hep data'.
  rewrite writeLargeMemory_checked by exact Hok. fold data'.
  destruct (Hep (dev s)) as (cfg & intf & E1 & E2 & E3).
  unfold bind, get_active_configuration, first_endpoint, ctrl_transfer.
  destruct (usb_get_active_configuration (dev s)) as [res d1].
  cbn [fst] in E1. subst res. rewrite E2, E3. cbn [dev calls snd].
  match goal with |- context [usb_ctrl_transfer ?ann d1] =>
    destruct (Hrc ann d1) as [b Eb];
    destruct (usb_ctrl_transfer ann d1) as [res d2] end.
  cbn [fst] in Eb. subst res.
  rewrite writeLargeMemory_loop_eq.
  destruct (len data' / blockLength >? 0); cbn [fst snd calls];
    rewrite <- !app_assoc; split; reflexivity.
Qed.

End MoreLaws.

(** Past its argument checks, [readLargeMemory] is the lookup, the
    announcement and the loop. *)
Lemma readLargeMemory_checked {D} `{UsbDevice D}
    address length blockLength appendZeros (s : session D) :
  checks_pass (ReadLarge address length blockLength appendZeros) = true ->
  let length' := if appendZeros then length + length mod blockLength
                 else length in
  readLargeMemory address length blockLength appendZeros s
  = (cfg <- get_active_configuration ;;
     ep <- first_endpoint cfg ENDPOINT_IN ;;
     ctrl_transfer (announcement REQ_RD_LARGE_MEM address length'
                      blockLength) ;;
     readLargeMemory_loop ep [] blockLength (length' / blockLength)) s.
Proof.
  intros Hok length'.
  apply checks_pass_read in Hok. destruct Hok as (Hbl & Hal & Ha & Hlen).
  assert (Hz : u32 0) by (unfold u32; lia).
  assert (Hu : u32 length').
  { subst length'. unfold u32. destruct appendZeros; [|lia].
    pose proof (Z.mod_pos_bound length blockLength Hbl).
    pose proof (Z.mod_le length blockLength ltac:(lia) Hbl). lia. }
  assert (Epad :
            (if appendZeros
             then r <- py_mod length blockLength ;; ret (length + r)
             else r <- py_mod length blockLength ;;
                  if negb (r =? 0)
                  then raise (ValueError "Large Data must be a multiple of block length")
                  else ret length) s = (inr length', s)).
  { subst length'. destruct appendZeros.
    - erewrite bind_inr by (apply py_mod_run; lia). reflexivity.
    - erewrite bind_inr by (apply py_mod_run; lia).
      destruct Hal as [Hal|Hal]; [discriminate|].
      rewrite Hal. reflexivity. }
  unfold readLargeMemory.
  erewrite bind_inr by exact Epad.
  erewrite bind_inr by (apply py_div_run; unfold u32 in *; lia).
  erewrite bind_inr by (apply pack_IIII_u32; assumption).
  reflexivity.
Qed.

(** ** Large transfers and registers on the memory-backed device *)

Module StubMore.

Import Stub.

Lemma reliable_bulk : reliable_bulk_out stub.
Proof. intros e b t d. eexists. reflexivity. Qed.

Lemma out_endpoint : endpoint_lookup stub ENDPOINT_OUT (Some (mk_endpoint 0x01)).
Proof. intros d. do 2 eexists. repeat split. Qed.

Lemma in_endpoint : endpoint_lookup stub ENDPOINT_IN (Some (mk_endpoint 0x81)).
Proof. intros d. do 2 eexists. repeat split. Qed.

Lemma bulk_after_stores e bs : forall d,
  bulk_after e bs d
  = mk_stub (store (mem d) (cursor d) (List.concat bs))
            (cursor d + len (List.concat bs)).
Proof.
  induction bs as [|b bs IH]; intros d.
  - cbn. rewrite Z.add_0_r. now destruct d.
  - rewrite bulk_after_cons, IH. cbn [usb_ep_write device snd mem cursor].
    cbn [List.concat]. rewrite StubLaws.store_app, len_app. f_equal. lia.
Qed.

(** The announcement of a bulk phase points the cursor at its address. *)
Lemma announced_cursor q address length blockLength d :
  u32 address ->
  q = REQ_WR_LARGE_MEM \/ q = REQ_RD_LARGE_MEM ->
  next (announcement q address length blockLength) d = mk_stub (mem d) address.
Proof.
  intros Ha Hq. unfold next, announcement. cbn [data_or_wLength bRequest].
  assert (Ea : announced (le32 address ++ le32 length ++ le32 0 ++ le32 0) d
               = mk_stub (mem d) address).
  { unfold announced.
    change (firstn 4 (le32 address ++ le32 length ++ le32 0 ++ le32 0))
      with (le32 address).
    now rewrite unpack_le32. }
  destruct Hq as [-> | ->]; exact Ea.
Qed.

Lemma writeLargeMemory_stores address data blockLength appendZeros
    (s : session stub) :
  checks_pass (WriteLarge address data blockLength appendZeros) = true ->
  (blockLength | len data) ->
  exists t,
    writeLargeMemory address data blockLength appendZeros s
    = (inr tt,
       mk_session (mk_stub (store (mem (dev s)) address data)
                           (address + len data)) t).
Proof.
  intros Hok Hd.
  rewrite (writeLargeMemory_run _ _ _ _ (mk_endpoint 0x01) s Hok
             StubLaws.reliable reliable_bulk out_endpoint).
  destruct (checks_pass_write _ _ _ _ Hok) as (Hbl & _ & Ha & _).
  rewrite bulk_after_stores, (concat_blocks_aligned _ _ _ Hbl Hd).
  cbn [usb_get_active_configuration usb_ctrl_transfer device snd].
  rewrite announced_cursor by (auto). cbn [mem cursor].
  eexists. reflexivity.
Qed.

Lemma readLargeMemory_loop_loads e blockLength :
  0 < blockLength ->
  forall m data (s : session stub),
    exists t,
      readLargeMemory_loop (Some e) data blockLength (Z.of_nat m) s
      = (inr (data ++ load (mem (dev s)) (cursor (dev s))
                        (Z.to_nat blockLength * m)),
         mk_session (mk_stub (mem (dev s))
                             (cursor (dev s) + blockLength * Z.of_nat m)) t).
Proof.
  intros Hbl. induction m as [|m IH]; intros data s;
    rewrite readLargeMemory_loop_eq.
  - cbn [Z.of_nat Z.gtb Z.compare]. rewrite Nat.mul_0_r, Z.mul_0_r, Z.add_0_r.
    cbn [load]. rewrite app_nil_r. exists (calls s). now destruct s as [[? ?] ?].
  - destruct (Z.gtb_spec (Z.of_nat (S m)) 0); [|lia].
    unfold bind, ep_read. cbn [usb_ep_read device dev].
    rewrite map_chr_ord.
    replace (Z.of_nat (S m) - 1) with (Z.of_nat m) by lia.
    match goal with |- context [readLargeMemory_loop _ ?acc _ _ ?s'] =>
      destruct (IH acc s') as [t Et]; rewrite Et end.
    cbn [dev mem cursor]. eexists. f_equal.
    + f_equal. rewrite <- app_assoc. f_equal.
      replace (Z.to_nat blockLength * S m)%nat
        with (Z.to_nat blockLength + Z.to_nat blockLength * m)%nat by lia.
      rewrite StubLaws.load_plus. do 2 f_equal. lia.
    + f_equal. f_equal. lia.
Qed.

Lemma load_length m n : forall a, List.length (load m a n) = n.
Proof. induction n as [|n IH]; intros a; cbn [load List.length]; auto. Qed.

Lemma readLargeMemory_stub address length blockLength appendZeros
    (s : session stub) :
  checks_pass (ReadLarge address length blockLength appendZeros) = true ->
  let length' := if appendZeros then length + length mod blockLength
                 else length in
  exists t,
    readLargeMemory address length blockLength appendZeros s
    = (inr (load (mem (dev s)) address
              (Z.to_nat (blockLength * (length' / blockLength)))),
       mk_session
         (mk_stub (mem (dev s))
                  (address + blockLength * (length' / blockLength))) t).
Proof.
  intros Hok length'.
  rewrite readLargeMemory_checked by exact Hok. fold length'.
  destruct (checks_pass_read _ _ _ _ Hok) as (Hbl & _ & Ha & Hlen).
  assert (Hl' : 0 <= length').
  { subst length'. destruct appendZeros; [|lia].
    pose proof (Z.mod_pos_bound length blockLength Hbl). lia. }
  unfold bind, get_active_configuration, first_endpoint, ctrl_transfer.
  cbn [usb_get_active_configuration usb_ctrl_transfer device dev calls].
  change (cfg_getitem config 0 0)
    with (Some [mk_endpoint 0x81; mk_endpoint 0x01]).
  cbn [dev calls]. rewrite announced_cursor by auto.
  assert (Hq : 0 <= length' / blockLength) by (apply Z.div_pos; lia).
  change (find_descriptor _ _) with (Some (mk_endpoint 0x81)).
  match goal with |- context [readLargeMemory_loop _ _ _ _ ?s'] =>
    destruct (readLargeMemory_loop_loads (mk_endpoint 0x81) blockLength Hbl
                (Z.to_nat (length' / blockLength)) [] s') as [t Et] end.
  rewrite Z2Nat.id in Et by exact Hq. rewrite Et.
  cbn [dev mem cursor app]. exists t.
  rewrite Z2Nat.inj_mul by lia. reflexivity.
Qed.

(** X21: what [readLargeMemory] returns on the memory-backed device: the
    [blockLength * (length' // blockLength)] bytes found at [address],
    where [length'] is [length + length % blockLength] with [appendZeros]
    and [length] without.  With the flag, the result is whole blocks and
    can be shorter or longer than the [length] asked for. *)
Theorem readLargeMemory_returns address length blockLength appendZeros
    (s : session stub) :
  checks_pass (ReadLarge address length blockLength appendZeros) = true ->
  let length' := if appendZeros then length + length mod blockLength
                 else length in
  let n := blockLength * (length' / blockLength) in
  fst (readLargeMemory address length blockLength appendZeros s)
  = inr (load (mem (dev s)) address (Z.to_nat n))
  /\ len (load (mem (dev s)) address (Z.to_nat n)) = n
  /\ mem (dev (snd (readLargeMemory address length blockLength appendZeros s)))
     = mem (dev s).
Proof.
  intros Hok length' n.
  destruct (readLargeMemory_stub address length blockLength appendZeros s Hok)
    as [t E].
  fold length' in E. fold n in E. rewrite E. cbn [fst snd dev mem].
  split; [reflexivity|]. split; [|reflexivity].
  unfold len. rewrite load_length. apply Z2Nat.id.
  destruct (checks_pass_read _ _ _ _ Hok) as (Hbl & _ & _ & Hlen).
  subst n. apply Z.mul_nonneg_nonneg; [lia|]. apply Z.div_pos; [|lia].
  subst length'. destruct appendZeros; [|lia].
  pose proof (Z.mod_pos_bound length blockLength Hbl). lia.
Qed.

Lemma readLargeMemory_loads address length blockLength appendZeros
    (s : session stub) :
  checks_pass (ReadLarge address length blockLength appendZeros) = true ->
  (blockLength | length) ->
  exists t,
    readLargeMemory address length blockLength appendZeros s
    = (inr (load (mem (dev s)) address (Z.to_nat length)),
       mk_session (mk_stub (mem (dev s)) (address + length)) t).
Proof.
  intros Hok Hd.
  destruct (readLargeMemory_stub address length blockLength appendZeros s Hok)
    as [t E].
  destruct (checks_pass_read _ _ _ _ Hok) as (Hbl & _ & _ & Hlen).
  apply Z.mod_divide in Hd; [|lia].
  assert (El : (if appendZeros then length + length mod blockLength
                else length) = length).
  { destruct appendZeros; [rewrite Hd; lia | reflexivity]. }
  rewrite El in E.
  pose proof (Z.div_mod length blockLength ltac:(lia)) as Hdm.
  rewrite Hd, Z.add_0_r in Hdm. rewrite <- Hdm in E.
  now exists t.
Qed.

Lemma read_checks_of_write address data blockLength appendZeros appendZeros' :
  checks_pass (WriteLarge address data blockLength appendZeros) = true ->
  (blockLength | len data) ->
  checks_pass (ReadLarge address (len data) blockLength appendZeros') = true.
Proof.
  intros Hok Hd.
  destruct (checks_pass_write _ _ _ _ Hok) as (Hbl & _ & [Ha0 Ha1] & Hlt).
  apply Z.mod_divide in Hd; [|lia].
  cbn [checks_pass].
  rewrite !andb_true_iff, orb_true_iff, !Z.ltb_lt, !Z.leb_le, Z.eqb_eq.
  unfold len in *. repeat split; try lia; try (now right).
Qed.

(** X16: on the memory-backed device, a buffer written with
    [writeLargeMemory] is read back by [readLargeMemory]: for a block
    length that divides the buffer's length (and arguments that pass the
    checks), writing [data] at [address] and reading [len(data)] bytes
    there returns [data], with either flag on either call. *)
Theorem large_write_read_roundtrip address data blockLength
    appendZeros appendZeros' (s : session stub) :
  checks_pass (WriteLarge address data blockLength appendZeros) = true ->
  (blockLength | len data) ->
  fst ((writeLargeMemory address data blockLength appendZeros ;;
        readLargeMemory address (len data) blockLength appendZeros') s)
  = inr data.
Proof.
  intros Hok Hd.
  destruct (writeLargeMemory_stores address data blockLength appendZeros s
              Hok Hd) as [t Ew].
  erewrite bind_inr by exact Ew.
  destruct (readLargeMemory_loads address (len data) blockLength appendZeros'
              (mk_session (mk_stub (store (mem (dev s)) address data)
                                   (address + len data)) t)
              (read_checks_of_write _ _ _ _ appendZeros' Hok Hd) Hd)
    as [t' Er].
  rewrite Er. cbn [fst dev mem]. f_equal.
  unfold len. rewrite Nat2Z.id. apply StubLaws.load_store.
  destruct (checks_pass_write _ _ _ _ Hok) as (_ & _ & _ & Hlt). lia.
Qed.

(** X17: the control-transfer path and the bulk path reach the same
    memory of the device: what [writeMemory] wrote, [readLargeMemory]
    returns. *)
Theorem chunked_write_large_read address data blockLength appendZeros
    appendZeros' (s : session stub) :
  checks_pass (WriteLarge address data blockLength appendZeros) = true ->
  (blockLength | len data) ->
  fst ((writeMemory address data ;;
        readLargeMemory address (len data) blockLength appendZeros') s)
  = inr data.
Proof.
  intros Hok Hd.
  destruct (checks_pass_write _ _ _ _ Hok) as (_ & _ & _ & Hlt).
  destruct (StubLaws.writeMemory_stores address data s) as [t Ew].
  erewrite bind_inr by exact Ew.
  destruct (readLargeMemory_loads address (len data) blockLength appendZeros'
              (mk_session (mk_stub (store (mem (dev s)) address data)
                                   (cursor (dev s))) t)
              (read_checks_of_write _ _ _ _ appendZeros' Hok Hd) Hd)
    as [t' Er].
  rewrite Er. cbn [fst dev mem]. f_equal.
  unfold len. rewrite Nat2Z.id. apply StubLaws.load_store. lia.
Qed.

(** X18: [writeMemory] touches the addressed bytes only: on the
    memory-backed device every cell outside
    [address, address + len(data)) (modulo 2^32) keeps its content. *)
Theorem writeMemory_frame address data (s : session stub) x :
  (forall i, 0 <= i < len data -> (address + i) mod 2 ^ 32 <> x) ->
  mem (dev (snd (writeMemory address data s))) x = mem (dev s) x.
Proof.
  intros Hx. destruct (StubLaws.writeMemory_stores address data s) as [t Ew].
  rewrite Ew. cbn [snd dev mem]. now apply StubLaws.store_outside.
Qed.

(** X19: a register written as four little-endian bytes reads back as its
    value: on the memory-backed device, [writeMemory(address, le32(v))]
    followed by [readReg(address)] returns [v], for every 32-bit [v]. *)
Theorem register_roundtrip address v (s : session stub) :
  u32 v ->
  fst ((writeMemory address (le32 v) ;; readReg address) s) = inr v.
Proof.
  intros Hv. destruct (StubLaws.writeMemory_stores address (le32 v) s)
    as [t Ew].
  erewrite bind_inr by exact Ew.
  unfold readReg. unfold bind at 1. rewrite readSimpleMemory_ok by lia.
  unfold bind, ctrl_transfer. cbn [usb_ctrl_transfer device dev].
  unfold reply. cbn [bRequest data_or_wLength]. rewrite Z.eqb_refl.
  rewrite StubLaws.wire_address_split.
  rewrite (StubLaws.load_congr _ _ _ address) by (apply Z.mod_mod; lia).
  cbn [mem]. change (Z.to_nat 4) with (List.length (le32 v)).
  rewrite StubLaws.load_store by (vm_compute; discriminate).
  unfold ret, lift, unpack_I_seq. rewrite (unpack_le32 v Hv). reflexivity.
Qed.

End StubMore.

(** ** Opening a session *)

(** X20: [AmlogicSoC(idVendor, idProduct)] raises
    [ValueError('Device not found')] exactly when no device on the bus has
    both identifiers; otherwise the new session holds the first device
    that has them, and nothing has been transferred yet. *)
Theorem AmlogicSoC_init_finds_first {D} (bus : list (Z * Z * D)) idVendor idProduct :
  (AmlogicSoC_init bus idVendor idProduct
   = inl (ValueError "Device not found")
   <-> forall v p d, In (v, p, d) bus -> ~ (v = idVendor /\ p = idProduct))
  /\ (forall s,
         AmlogicSoC_init bus idVendor idProduct = inr s ->
         calls s = []
         /\ exists before after,
             bus = before ++ (idVendor, idProduct, dev s) :: after
             /\ forall v p d, In (v, p, d) before ->
                              ~ (v = idVendor /\ p = idProduct)).
Proof.
  unfold AmlogicSoC_init, usb_core_find.
  induction bus as [|[[v p] d] bus [IHn IHs]]; cbn [find fst snd].
  - split.
    + split; [intros _ v p d []|reflexivity].
    + intros s Hs. discriminate.
  - destruct (Z.eqb_spec v idVendor) as [Ev|Ev];
      [destruct (Z.eqb_spec p idProduct) as [Ep|Ep]|]; cbn [andb].
    + subst v p. split.
      * split; [discriminate|]. intros Hall. exfalso.
        apply (Hall idVendor idProduct d); [now left | now split].
      * intros s Hs. injection Hs as <-. split; [reflexivity|].
        exists [], bus. split; [reflexivity|]. intros ? ? ? [].
    + split.
      * rewrite IHn. split.
        -- intros Hall v' p' d' [E|Hin]; [|exact (Hall v' p' d' Hin)].
           injection E as <- <- <-. intros [_ E]. contradiction.
        -- intros Hall v' p' d' Hin. apply (Hall v' p' d'). now right.
      * intros s Hs. destruct (IHs s Hs) as (Hc & before & after & Eb & Hb).
        split; [exact Hc|]. exists ((v, p, d) :: before), after.
        split; [now rewrite Eb|].
        intros v' p' d' [E|Hin]; [|exact (Hb v' p' d' Hin)].
        injection E as <- <- <-. intros [_ E]. contradiction.
    + split.
      * rewrite IHn. split.
        -- intros Hall v' p' d' [E|Hin]; [|exact (Hall v' p' d' Hin)].
           injection E as <- <- <-. intros [E _]. contradiction.
        -- intros Hall v' p' d' Hin. apply (Hall v' p' d'). now right.
      * intros s Hs. destruct (IHs s Hs) as (Hc & before & after & Eb & Hb).
        split; [exact Hc|]. exists ((v, p, d) :: before), after.
        split; [now rewrite Eb|].
        intros v' p' d' [E|Hin]; [|exact (Hb v' p' d' Hin)].
        injection E as <- <- <-. intros [E _]. contradiction.
Qed.

(** ** Further concrete runs *)

Module MoreRuns.

Import Stub.

Lemma writeMemory_app_witness :
  (64 | len (repeat x5a 64))
  /\ writeMemory 0x1000 (repeat x5a 64 ++ five) fresh
     = (writeMemory 0x1000 (repeat x5a 64) ;;
        writeMemory (0x1000 + len (repeat x5a 64)) five) fresh.
Proof.
  assert (Hd : (64 | len (repeat x5a 64))) by (exists 1; reflexivity).
  split; [exact Hd|].
  exact (writeMemory_app 0x1000 (repeat x5a 64) five fresh Hd).
Defined.

Lemma readMemory_one_request_witness :
  70 <> 0
  /\ calls (snd (readMemory 0x1000 70 fresh))
     = [Ctrl_transfer (mk_ctrl 0xc0 REQ_READ_MEM 0 0x1000 (Length 64))]
  /\ fst (readMemory 0x1000 70 fresh) = inl TypeError.
Proof.
  assert (H70 : 70 <> 0) by discriminate.
  split; [exact H70|].
  destruct (readMemory_one_request 0x1000 70 fresh) as [_ Hr].
  exact (Hr H70).
Defined.

Lemma readMemory_negative_length_witness :
  -1 < 0
  /\ calls (snd (readMemory 0x12345678 (-1) fresh))
     = [Ctrl_transfer (mk_ctrl 0xc0 REQ_READ_MEM 0x1234 0x5678 (Length (-1)))].
Proof.
  assert (Hn : -1 < 0) by reflexivity.
  split; [exact Hn|].
  exact (readMemory_negative_length 0x12345678 (-1) fresh Hn).
Defined.

Lemma modifyMemory_field_out_of_range_witness :
  ~ (u32 0x1000 /\ u32 (2 ^ 32) /\ u32 0 /\ u32 0)
  /\ modifyMemory 0 0x1000 (2 ^ 32) 0 0 fresh = (inl StructError, fresh).
Proof.
  assert (Hn : ~ (u32 0x1000 /\ u32 (2 ^ 32) /\ u32 0 /\ u32 0)).
  { unfold u32. intros (_ & [_ Hlt] & _). lia. }
  split; [exact Hn|].
  exact (modifyMemory_field_out_of_range 0 0x1000 (2 ^ 32) 0 0 fresh Hn).
Defined.

Lemma run_wire_witness :
  u32 0x1000
  /\ exists r payload,
      calls (snd (run 0x1000 true fresh)) = [Ctrl_transfer r]
      /\ data_or_wLength r = Data payload
      /\ unpack_I payload = inr 0x1010.
Proof.
  assert (Ha : u32 0x1000) by (unfold u32; lia).
  split; [exact Ha|].
  destruct (run_wire 0x1000 true fresh Ha)
    as (r & payload & Ec & _ & _ & _ & Ed & Ep & _).
  exists r, payload. split; [exact Ec|]. split; [exact Ed | exact Ep].
Defined.

Lemma run_address_out_of_range_witness :
  ~ u32 (-1) /\ run (-1) true fresh = (inl StructError, fresh).
Proof.
  assert (Hn : ~ u32 (-1)) by (unfold u32; lia).
  split; [exact Hn|].
  exact (run_address_out_of_range (-1) true fresh Hn).
Defined.

Lemma register_helpers_wire_witness :
  u32 0x1000 /\ u32 0xdeadbeef /\ u32 0xff /\ u32 0x2000 /\ u32 0x3000
  /\ modify_wire 4 0x1000 0xdeadbeef 0xff 0
       (writeRegBits 0x1000 0xff 0xdeadbeef) fresh
  /\ modify_wire 5 0x3000 0 0 0x2000 (copyReg 0x2000 0x3000) fresh.
Proof.
  assert (H1 : u32 0x1000) by (unfold u32; lia).
  assert (H2 : u32 0xdeadbeef) by (unfold u32; lia).
  assert (H3 : u32 0xff) by (unfold u32; lia).
  assert (H4 : u32 0x2000) by (unfold u32; lia).
  assert (H5 : u32 0x3000) by (unfold u32; lia).
  repeat (split; [assumption|]).
  destruct (register_helpers_wire 0x1000 0xdeadbeef 0xff 0x2000 0x3000 fresh
              H1 H2 H3 H4 H5) as (_ & _ & _ & _ & Hb & Hc & _).
  split; [exact Hb | exact Hc].
Defined.

Lemma readReg_decodes_witness :
  usb_ctrl_transfer
    (mk_ctrl 0xc0 REQ_READ_MEM (Z.shiftr 0x1000 16) (Z.land 0x1000 0xffff)
       (Length 4)) (dev fresh)
  = (inr (le32 0), dev fresh)
  /\ fst (readReg 0x1000 fresh) = inr 0.
Proof.
  assert (Er : usb_ctrl_transfer
                 (mk_ctrl 0xc0 REQ_READ_MEM (Z.shiftr 0x1000 16)
                    (Z.land 0x1000 0xffff) (Length 4)) (dev fresh)
               = (inr (le32 0), dev fresh)) by reflexivity.
  split; [exact Er|].
  destruct (readReg_decodes 0x1000 fresh (le32 0) (dev fresh) Er)
    as (_ & Hv & _).
  apply Hv; [unfold u32; lia | reflexivity].
Defined.

Lemma readLargeMemory_unaligned_witness :
  4 <> 0 /\ ~ (4 | 5)
  /\ readLargeMemory 0x1000 5 4 false fresh
     = (inl (ValueError "Large Data must be a multiple of block length"),
        fresh).
Proof.
  assert (H4 : 4 <> 0) by discriminate.
  assert (Hnd : ~ (4 | 5)) by (intros [k Hk]; lia).
  split; [exact H4|]. split; [exact Hnd|].
  exact (readLargeMemory_unaligned 0x1000 5 4 fresh H4 Hnd).
Defined.

Lemma appendZeros_aligned_witness :
  5 <> 0 /\ (5 | len five)
  /\ writeLargeMemory 0x1000 five 5 true fresh
     = writeLargeMemory 0x1000 five 5 false fresh.
Proof.
  assert (H5 : 5 <> 0) by discriminate.
  assert (Hd : (5 | len five)) by (exists 1; reflexivity).
  split; [exact H5|]. split; [exact Hd|].
  destruct (appendZeros_aligned 0x1000 five 0 5 fresh H5) as [Hw _].
  exact (Hw Hd).
Defined.

Lemma writeLargeMemory_blocks_witness :
  checks_pass (WriteLarge 0x1000 seventy 35 false) = true
  /\ reliable_ctrl stub /\ reliable_bulk_out stub
  /\ endpoint_lookup stub ENDPOINT_OUT (Some (mk_endpoint 0x01))
  /\ fst (writeLargeMemory 0x1000 seventy 35 false fresh) = inr tt
  /\ bulk_writes (calls (snd (writeLargeMemory 0x1000 seventy 35 false fresh)))
     = [repeat x5a 35; repeat x5a 34 ++ [xa5]].
Proof.
  assert (Hok : checks_pass (WriteLarge 0x1000 seventy 35 false) = true)
    by reflexivity.
  split; [exact Hok|]. split; [exact StubLaws.reliable|].
  split; [exact StubMore.reliable_bulk|].
  split; [exact StubMore.out_endpoint|].
  destruct (writeLargeMemory_blocks 0x1000 seventy 35 false
              (mk_endpoint 0x01) fresh Hok StubLaws.reliable
              StubMore.reliable_bulk StubMore.out_endpoint)
    as (Ef & Ec & _).
  split; [exact Ef|]. rewrite Ec. reflexivity.
Defined.

Lemma writeLargeMemory_no_endpoint_witness :
  checks_pass (WriteLarge 0x1000 five 5 false) = true
  /\ reliable_ctrl unit /\ endpoint_lookup unit ENDPOINT_OUT None
  /\ fst (writeLargeMemory 0x1000 five 5 false InOnly.fresh)
     = inl AttributeError
  /\ calls (snd (writeLargeMemory 0x1000 five 5 false InOnly.fresh))
     = [Get_active_configuration; Find_descriptor ENDPOINT_OUT;
        Ctrl_transfer (announcement REQ_WR_LARGE_MEM 0x1000 5 5)].
Proof.
  assert (Hok : checks_pass (WriteLarge 0x1000 five 5 false) = true)
    by reflexivity.
  assert (Hrc : reliable_ctrl unit) by (intros r d; eexists; reflexivity).
  assert (Hep : endpoint_lookup unit ENDPOINT_OUT None)
    by (intros d; do 2 eexists; repeat split).
  split; [exact Hok|]. split; [exact Hrc|]. split; [exact Hep|].
  destruct (writeLargeMemory_no_endpoint 0x1000 five 5 false InOnly.fresh
              Hok Hrc Hep) as (Ec & Ef).
  split; [exact Ef | exact Ec].
Defined.

Lemma large_write_read_roundtrip_witness :
  checks_pass (WriteLarge 0xfffffff0 seventy 35 false) = true
  /\ (35 | len seventy)
  /\ fst ((writeLargeMemory 0xfffffff0 seventy 35 false ;;
           readLargeMemory 0xfffffff0 (len seventy) 35 true) fresh)
     = inr seventy.
Proof.
  assert (Hok : checks_pass (WriteLarge 0xfffffff0 seventy 35 false) = true)
    by reflexivity.
  assert (Hd : (35 | len seventy)) by (exists 2; reflexivity).
  split; [exact Hok|]. split; [exact Hd|].
  exact (StubMore.large_write_read_roundtrip 0xfffffff0 seventy 35 false true
           fresh Hok Hd).
Defined.

Lemma chunked_write_large_read_witness :
  checks_pass (WriteLarge 0x1000 seventy 35 false) = true
  /\ (35 | len seventy)
  /\ fst ((writeMemory 0x1000 seventy ;;
           readLargeMemory 0x1000 (len seventy) 35 false) fresh)
     = inr seventy.
Proof.
  assert (Hok : checks_pass (WriteLarge 0x1000 seventy 35 false) = true)
    by reflexivity.
  assert (Hd : (35 | len seventy)) by (exists 2; reflexivity).
  split; [exact Hok|]. split; [exact Hd|].
  exact (StubMore.chunked_write_large_read 0x1000 seventy 35 false false
           fresh Hok Hd).
Defined.

Lemma writeMemory_frame_witness :
  (forall i, 0 <= i < len five -> (0x1000 + i) mod 2 ^ 32 <> 0x1005)
  /\ mem (dev (snd (writeMemory 0x1000 five fresh))) 0x1005 = x00.
Proof.
  assert (Hx : forall i, 0 <= i < len five -> (0x1000 + i) mod 2 ^ 32 <> 0x1005).
  { intros i Hi. change (len five) with 5 in Hi.
    rewrite Z.mod_small by lia. lia. }
  split; [exact Hx|].
  exact (StubMore.writeMemory_frame 0x1000 five fresh 0x1005 Hx).
Defined.

Lemma register_roundtrip_witness :
  u32 0xdeadbeef
  /\ fst ((writeMemory 0x1000 (le32 0xdeadbeef) ;; readReg 0x1000) fresh)
     = inr 0xdeadbeef.
Proof.
  assert (Hv : u32 0xdeadbeef) by (unfold u32; lia).
  split; [exact Hv|].
  exact (StubMore.register_roundtrip 0x1000 0xdeadbeef fresh Hv).
Defined.

Lemma AmlogicSoC_init_witness :
  AmlogicSoC_init [(1, 2, dev fresh); (default_idVendor, default_idProduct, dev fresh)]
    default_idVendor default_idProduct = inr fresh
  /\ AmlogicSoC_init [(1, 2, dev fresh)] default_idVendor default_idProduct
     = inl (ValueError "Device not found").
Proof.
  split; [reflexivity|].
  destruct (AmlogicSoC_init_finds_first [(1, 2, dev fresh)]
              default_idVendor default_idProduct) as [[_ Hn] _].
  apply Hn. intros v p d [E|[]]. injection E as <- <- <-.
  intros [E _]. discriminate.
Defined.

Lemma readLargeMemory_returns_witness :
  checks_pass (ReadLarge 0x1000 5 4 true) = true
  /\ fst (readLargeMemory 0x1000 5 4 true fresh) = inr (repeat x00 4).
Proof.
  assert (Hok : checks_pass (ReadLarge 0x1000 5 4 true) = true) by reflexivity.
  split; [exact Hok|].
  destruct (StubMore.readLargeMemory_returns 0x1000 5 4 true fresh Hok)
    as (Ef & _).
  exact Ef.
Defined.

End MoreRuns.
